(** * Edge Manager workshop: the edge-agent client helpers and the
      wind-farm simulation loop

    The notebook [lab/05 - End to End SageMaker Edge Manager AIM325
    GreenGrass-GGv2.ipynb] defines the helper functions that wrap the gRPC
    calls to the edge agent: [list_models], [load_model], [unload_model],
    [predict], [create_tensor], [capture_data] and [write_to_shm].  They are
    embedded here as functions in a small state-and-exception monad over a
    world that holds the agent process, the log of remote calls and the
    console.

    The simulator modules the notebooks import from [app/] (turbine,
    simulator, windfarm, ota) are modelled from the specification. *)

From Stdlib Require Import ZArith QArith Qabs List Strings.String Strings.Ascii Strings.Byte Lia.
From stdpp Require Import base option list gmap strings.

Local Open Scope Z_scope.

(** ** Python values *)

(** Exceptions (all of them subclasses of Python's [Exception]). *)
Inductive PyExn : Type :=
| Exception (msg : string)
| RpcError (code : Z) (details : string)
| IndexError
| ValueError (msg : string)
| AttributeError
| TypeError
| NotAttachedError
| PermissionsError.

(** The outcome of a Python expression: a value or a raised exception. *)
Inductive Outcome (A : Type) : Type :=
| Ret (a : A)
| Raise (e : PyExn).
Arguments Ret {A} a.
Arguments Raise {A} e.

Definition is_raise {A} (o : Outcome A) : bool :=
  match o with Ret _ => false | Raise _ => true end.

(** [l[0]] on a Python list or a repeated protobuf field. *)
Definition index0 {A} (l : list A) : Outcome A :=
  match l with
  | [] => Raise IndexError
  | a :: _ => Ret a
  end.

(** Text is well-formed Unicode held in UTF-8, one [ascii] per byte, so
    that [s.encode('utf-8')] is the byte sequence underneath. *)
Definition encode_utf8 (s : string) : list byte := list_byte_of_string s.

(** ** numpy arrays *)

Inductive DType : Type :=
| np_bool | np_uint8 | np_int32 | np_int64
| np_float16 | np_float32 | np_float64.

#[global] Instance DType_eq_dec : EqDecision DType.
Proof. solve_decision. Defined.

(** An array is its element type, its shape and its elements as raw
    bytes in C order (what [tobytes()] returns). *)
Record NDArray : Type := mkNDArray {
  dtype : DType;
  shape : list Z;
  buffer : list byte
}.

Definition tobytes (a : NDArray) : list byte := buffer a.

Definition itemsize_float32 : Z := 4.

Definition prodZ (l : list Z) : Z := foldr Z.mul 1 l.

(** [np.frombuffer(b, dtype=np.float32)]: a one-dimensional view; the
    buffer length must be a multiple of the element size. *)
Definition np_frombuffer_float32 (b : list byte) : Outcome NDArray :=
  let n := Z.of_nat (length b) in
  if n mod itemsize_float32 =? 0
  then Ret (mkNDArray np_float32 [n / itemsize_float32] b)
  else Raise (ValueError "buffer size must be a multiple of element size").

(** [a.reshape(newshape)] for a float32 array: numpy takes a negative
    dimension as the unknown one, allows one of them and infers it; the
    element count must be preserved. *)
Definition np_reshape (a : NDArray) (newshape : list Z) : Outcome NDArray :=
  let n := Z.of_nat (length (buffer a)) / itemsize_float32 in
  let known := prodZ (List.filter (fun d => 0 <=? d) newshape) in
  match length (List.filter (fun d => d <? 0) newshape) with
  | O =>
      if known =? n then Ret (mkNDArray (dtype a) newshape (buffer a))
      else Raise (ValueError "cannot reshape array")
  | S O =>
      if (0 <? known) && (n mod known =? 0)
      then Ret (mkNDArray (dtype a)
                  (map (fun d => if d <? 0 then n / known else d) newshape)
                  (buffer a))
      else Raise (ValueError "cannot reshape array")
  | _ => Raise (ValueError "can only specify one unknown dimension")
  end.

(** The value of a little-endian integer, as the arrays of the
    notebook's platform (Linux on x86-64) hold their elements. *)
Fixpoint le_unsigned (b : list byte) : Z :=
  match b with
  | [] => 0
  | x :: r => Z.of_N (Byte.to_N x) + 256 * le_unsigned r
  end.

Definition le_signed (b : list byte) : Z :=
  let m := 2 ^ (8 * Z.of_nat (length b)) in
  if le_unsigned b <? m / 2 then le_unsigned b else le_unsigned b - m.

(** [operator.index(a)], which the protobuf setter of an integer field
    calls on what it is given: numpy answers for an integer array without
    dimensions only ("only integer scalar arrays can be converted to a
    scalar index"). *)
Definition array_index (a : NDArray) : option Z :=
  match shape a with
  | [] =>
      match dtype a with
      | np_uint8 => Some (le_unsigned (buffer a))
      | np_int32 | np_int64 => Some (le_signed (buffer a))
      | _ => None
      end
  | _ :: _ => None
  end.

Section Cast.
(** Element conversion of [astype(np.float32)] from another element
    type; it is floating-point work of numpy and stays abstract. *)
Variable cast_float32 : DType -> list byte -> list byte.

(** [a.astype(np.float32)]: a copy with float32 elements. *)
Definition astype_float32 (a : NDArray) : NDArray :=
  if decide (dtype a = np_float32) then a
  else mkNDArray np_float32 (shape a) (cast_float32 (dtype a) (buffer a)).
End Cast.

(** ** Messages of the agent's protocol (the generated stubs) *)

Inductive DataType : Type :=
| UINT8 | INT16 | INT32 | INT64 | FLOAT16 | FLOAT32 | FLOAT64.

Record TensorMetadata : Type := mkTensorMetadata {
  tm_name : list byte;
  tm_data_type : DataType;
  tm_shape : list Z
}.

Record SharedMemoryHandle : Type := mkSharedMemoryHandle {
  shm_segment_id : Z;
  shm_offset : Z
}.

(** The [data] field of a tensor is a oneof. *)
Inductive TensorData : Type :=
| NoData
| ByteData (b : list byte)
| ShmData (h : SharedMemoryHandle).

Record Tensor : Type := mkTensor {
  tensor_metadata : TensorMetadata;
  tensor_data : TensorData
}.

Definition byte_data (t : Tensor) : list byte :=
  match tensor_data t with ByteData b => b | _ => [] end.

Record Model : Type := mkModel {
  m_url : string;
  m_name : string;
  input_tensor_metadatas : list TensorMetadata;
  output_tensor_metadatas : list TensorMetadata
}.

Record ListModelsResponse : Type := mkListModelsResponse {
  lm_models : list Model
}.

Record LoadModelRequest : Type := mkLoadModelRequest {
  load_url : string;
  load_name : string
}.

Record LoadModelResponse : Type := mkLoadModelResponse {
  load_model_resp : Model
}.

Record UnLoadModelRequest : Type := mkUnLoadModelRequest {
  unload_name : string
}.

Record PredictRequest : Type := mkPredictRequest {
  predict_name : string;
  predict_tensors : list Tensor
}.

Record PredictResponse : Type := mkPredictResponse {
  response_tensors : list Tensor
}.

Record CaptureDataRequest : Type := mkCaptureDataRequest {
  capture_model_name : string;
  capture_id : string;
  capture_input_tensors : list Tensor;
  capture_output_tensors : list Tensor
}.

(** A remote call, as it appears on the wire. *)
Inductive RpcCall : Type :=
| CallListModels
| CallLoadModel (req : LoadModelRequest)
| CallUnLoadModel (req : UnLoadModelRequest)
| CallPredict (req : PredictRequest)
| CallCaptureData (req : CaptureDataRequest).

Definition is_predict_call (c : RpcCall) : bool :=
  match c with CallPredict _ => true | _ => false end.

(** ** The external agent and the world of the client *)

(** The agent is a separate process: its state [S] and the way it answers
    are outside this repository, so the stub is an interface. *)
Class AgentStub (S : Type) : Type := {
  ListModels : S -> Outcome ListModelsResponse * S;
  LoadModel : LoadModelRequest -> S -> Outcome LoadModelResponse * S;
  UnLoadModel : UnLoadModelRequest -> S -> Outcome unit * S;
  Predict : PredictRequest -> S -> Outcome PredictResponse * S;
  CaptureData : CaptureDataRequest -> S -> Outcome unit * S
}.

Record World (St : Type) : Type := mkWorld {
  agent_state : St;
  rpc_log : list RpcCall;
  stdout : list PyExn;
  uuid_seed : nat
}.
Arguments mkWorld {St}.
Arguments agent_state {St}.
Arguments rpc_log {St}.
Arguments stdout {St}.
Arguments uuid_seed {St}.

(** ** Statements with state and exceptions *)

Definition Py (W A : Type) : Type := W -> Outcome A * W.

Definition ret {W A} (a : A) : Py W A := fun w => (Ret a, w).

Definition raise {W A} (e : PyExn) : Py W A := fun w => (Raise e, w).

Definition lift {W A} (o : Outcome A) : Py W A := fun w => (o, w).

Definition bind {W A B} (m : Py W A) (k : A -> Py W B) : Py W B :=
  fun w =>
    match m w with
    | (Ret a, w') => k a w'
    | (Raise e, w') => (Raise e, w')
    end.

(** [try: body except Exception as e: handler(e)] *)
Definition try_except {W A} (body : Py W A) (handler : PyExn -> Py W A) : Py W A :=
  fun w =>
    match body w with
    | (Ret a, w') => (Ret a, w')
    | (Raise e, w') => handler e w'
    end.

Declare Scope py_scope.
Delimit Scope py_scope with py.
Notation "x <- m ;; k" := (bind m (fun x => k))
  (at level 100, m at next level, k at level 200, right associativity) : py_scope.
Notation "m ;;; k" := (bind m (fun _ => k))
  (at level 100, k at level 200, right associativity) : py_scope.

(** [for s in l: acc.append(s)] *)
Definition append_all {A} (acc l : list A) : list A :=
  foldl (fun a s => a ++ [s]) acc l.

(** ** The helper functions of the notebook *)

Record ModelIO : Type := mkModelIO {
  io_in : list TensorMetadata;
  io_out : list TensorMetadata
}.

(** [{m.name: {'in': ..., 'out': ...} for m in models}]: a later model
    of the same name replaces an earlier one. *)
Definition models_dict (ms : list Model) : gmap string ModelIO :=
  foldl (fun d m =>
           <[m_name m := mkModelIO (input_tensor_metadatas m)
                                   (output_tensor_metadatas m)]> d)
        ∅ ms.

(** A value a repeated int32 field takes. *)
Definition int32_ok (s : Z) : bool :=
  (-2147483648 <=? s) && (s <=? 2147483647).

(** A value a uint64 field takes. *)
Definition uint64_ok (v : Z) : bool :=
  (0 <=? v) && (v <? 18446744073709551616).

(** [for s in l: field.append(s)] on the repeated int32 field [shape]:
    the field refuses a value out of its range. *)
Fixpoint append_int32 (acc l : list Z) : Outcome (list Z) :=
  match l with
  | [] => Ret acc
  | s :: r =>
      if int32_ok s then append_int32 (acc ++ [s]) r
      else Raise (ValueError "Value out of range")
  end.

Definition create_tensor (x : NDArray) (tensor_name : string) : Outcome Tensor :=
  if decide (dtype x <> np_float32)
  then Raise (Exception "It only supports numpy float32 arrays for this tensor")
  else
    match append_int32 [] (shape x) with
    | Raise e => Raise e
    | Ret shp =>
        Ret (mkTensor
               (mkTensorMetadata (encode_utf8 tensor_name) FLOAT32 shp)
               (ByteData (tobytes x)))
    end.

(** The second argument of [predict]: an array, or the id of a
    shared-memory segment when [shm] is set. *)
Inductive PredictInput : Type :=
| InArray (a : NDArray)
| InSegment (id : Z).

Section Client.
Context {St : Type} `{!AgentStub St}.
Variable cast_float32 : DType -> list byte -> list byte.
Variable uuid_of : nat -> string.

Local Open Scope py_scope.

Local Abbreviation M := (Py (World St)).

Definition print (e : PyExn) : M unit :=
  fun w => (Ret tt, mkWorld (agent_state w) (rpc_log w) (stdout w ++ [e]) (uuid_seed w)).

(** One remote call: the request goes on the wire and the agent answers
    or the call fails. *)
Definition rpc {Resp} (call : RpcCall) (h : St -> Outcome Resp * St) : M Resp :=
  fun w =>
    let '(r, s') := h (agent_state w) in
    (r, mkWorld s' (rpc_log w ++ [call]) (stdout w) (uuid_seed w)).

(** [str(uuid.uuid4())] *)
Definition uuid4 : M string :=
  fun w => (Ret (uuid_of (uuid_seed w)),
            mkWorld (agent_state w) (rpc_log w) (stdout w) (Datatypes.S (uuid_seed w))).

Definition list_models : M (gmap string ModelIO) :=
  resp <- rpc CallListModels ListModels ;;
  ret (models_dict (lm_models resp)).

Definition load_model (model_name model_path : string) : M (option LoadModelResponse) :=
  try_except
    (let req := mkLoadModelRequest model_path model_name in
     resp <- rpc (CallLoadModel req) (LoadModel req) ;;
     ret (Some resp))
    (fun e => print e ;;; ret None).

Definition unload_model (model_name : string) : M (option unit) :=
  try_except
    (let req := mkUnLoadModelRequest model_name in
     resp <- rpc (CallUnLoadModel req) (UnLoadModel req) ;;
     ret (Some resp))
    (fun e => print e ;;; ret None).

(** [tensor.shared_memory_handle.offset = 0;
    tensor.shared_memory_handle.segment_id = v] on the uint64 field. *)
Definition segment_handle (v : Z) : Outcome TensorData :=
  if uint64_ok v then Ret (ShmData (mkSharedMemoryHandle v 0))
  else Raise (ValueError "Value out of range").

(** The payload of the request tensor: the shared-memory handle when
    [shm] is set, the array's float32 bytes otherwise.  The segment id is
    what the setter of the field makes of [x]: an integer, or an integer
    array without dimensions. *)
Definition request_data (x : PredictInput) (shm : bool) : Outcome TensorData :=
  if shm
  then match x with
       | InSegment id => segment_handle id
       | InArray a =>
           match array_index a with
           | Some id => segment_handle id
           | None => Raise TypeError
           end
       end
  else match x with
       | InArray a => Ret (ByteData (tobytes (astype_float32 cast_float32 a)))
       | InSegment _ => Raise AttributeError
       end.

(** The metadata of the request tensor, copied from the model's first
    input; its dimensions come out of an int32 field, so that appending
    them to one cannot fail. *)
Definition request_metadata (meta : TensorMetadata) : TensorMetadata :=
  mkTensorMetadata (tm_name meta) (tm_data_type meta)
                   (append_all [] (tm_shape meta)).

(** The body of the [try] in [predict]. *)
Definition predict_body (model_name : string) (x : PredictInput) (shm : bool)
  : M NDArray :=
  model_map <- list_models ;;
  match model_map !! model_name with
  | None => raise (Exception ("Model " ++ model_name ++ " not loaded")%string)
  | Some io =>
      meta <- lift (index0 (io_in io)) ;;
      data <- lift (request_data x shm) ;;
      let req := mkPredictRequest model_name
                   [mkTensor (request_metadata meta) data] in
      resp <- rpc (CallPredict req) (Predict req) ;;
      meta <- lift (index0 (io_out io)) ;;
      tensor <- lift (index0 (response_tensors resp)) ;;
      data <- lift (np_frombuffer_float32 (byte_data tensor)) ;;
      lift (np_reshape data (tm_shape (tensor_metadata tensor)))
  end.

Definition predict (model_name : string) (x : PredictInput) (shm : bool)
  : M (option NDArray) :=
  try_except
    (y <- predict_body model_name x shm ;; ret (Some y))
    (fun e => print e ;;; ret None).

(** [create_tensor] on an argument that may be [None] (what [predict]
    returns on failure): [None.dtype] is an [AttributeError]. *)
Definition create_tensor_arg (x : option NDArray) (tensor_name : string) : Outcome Tensor :=
  match x with
  | None => Raise AttributeError
  | Some a => create_tensor a tensor_name
  end.

Definition capture_data (model_name : string) (input_tensor output_tensor : option NDArray)
  : M unit :=
  try_except
    (cid <- uuid4 ;;
     tin <- lift (create_tensor_arg input_tensor "input") ;;
     tout <- lift (create_tensor_arg output_tensor "output") ;;
     let req := mkCaptureDataRequest model_name cid [tin] [tout] in
     resp <- rpc (CallCaptureData req) (CaptureData req) ;;
     ret tt)
    (fun e => print e).
End Client.

(** ** Shared memory (the [sysv_ipc.SharedMemory] object) *)

Inductive ShmEvent : Type :=
| EvDetach
| EvSetMode (mode : Z)
| EvAttach
| EvWrite (mode_at_write : Z) (b : list byte).

Record SharedMemory : Type := mkSharedMemory {
  sm_id : Z;
  sm_size : nat;
  sm_mode : Z;
  sm_attached : bool;
  sm_bytes : list byte;
  sm_events : list ShmEvent
}.

Definition mode_rw : Z := 384.   (* 0o0600 *)
Definition mode_ro : Z := 256.   (* 0o0400 *)

Definition sm_record (ev : ShmEvent) (sm : SharedMemory) : list ShmEvent :=
  sm_events sm ++ [ev].

(** [sm.detach()] *)
Definition sm_detach : Py SharedMemory unit :=
  fun sm =>
    if sm_attached sm
    then (Ret tt, mkSharedMemory (sm_id sm) (sm_size sm) (sm_mode sm) false
                                 (sm_bytes sm) (sm_record EvDetach sm))
    else (Raise NotAttachedError, sm).

(** [sm.mode = m] *)
Definition sm_set_mode (m : Z) : Py SharedMemory unit :=
  fun sm =>
    (Ret tt, mkSharedMemory (sm_id sm) (sm_size sm) m (sm_attached sm)
                            (sm_bytes sm) (sm_record (EvSetMode m) sm)).

(** [sm.attach()]: attaches for reading and writing, which the owner's
    permission bits must allow. *)
Definition sm_attach : Py SharedMemory unit :=
  fun sm =>
    if Z.land (sm_mode sm) mode_rw =? mode_rw
    then (Ret tt, mkSharedMemory (sm_id sm) (sm_size sm) (sm_mode sm) true
                                 (sm_bytes sm) (sm_record EvAttach sm))
    else (Raise PermissionsError, sm).

(** [sm.write(b)]: writes at offset 0 of an attached segment; the bytes
    must fit, and the bytes behind them stay as they are. *)
Definition sm_write (b : list byte) : Py SharedMemory unit :=
  fun sm =>
    if negb (sm_attached sm) then (Raise NotAttachedError, sm)
    else if (sm_size sm <? length b)%nat
         then (Raise (ValueError "attempt to write past the end of the segment"), sm)
         else (Ret tt, mkSharedMemory (sm_id sm) (sm_size sm) (sm_mode sm) true
                                      (b ++ drop (length b) (sm_bytes sm))
                                      (sm_record (EvWrite (sm_mode sm) b) sm)).

Section SharedMemoryWrite.
Variable cast_float32 : DType -> list byte -> list byte.

Local Open Scope py_scope.

Definition write_to_shm (payload : NDArray) : Py SharedMemory unit :=
  (fun sm => if sm_attached sm then sm_detach sm else ret tt sm) ;;;
  sm_set_mode mode_rw ;;;
  sm_attach ;;;
  sm_write (tobytes (astype_float32 cast_float32 payload)) ;;;
  sm_set_mode mode_ro.
End SharedMemoryWrite.

(** ** Turbine simulator *)

Module RingBuffer.
Section Def.
Context {A : Type}.

(** Modelled from the spec: the ring buffer of app/turbine.py, which
    is not part of the sources at hand.  A fixed-capacity queue, the
    oldest entry first, that overwrites its oldest entry on
    overflow. *)
Record t : Type := mk {
  capacity : nat;
  items : list A
}.

Definition empty (cap : nat) : t := mk cap [].

Definition size (b : t) : nat := length (items b).

(** Modelled from the spec: appending a sample to the ring buffer
    of app/turbine.py (absent); once the buffer is full the oldest
    entries make room. *)
Definition append (x : A) (b : t) : t :=
  mk (capacity b)
     (drop (length (items b) + 1 - capacity b) (items b ++ [x])).

(** Modelled from the spec: the read of the latest window of at most
    [n] samples by the controller loop (app/windfarm.py, absent). *)
Definition latest_window (n : nat) (b : t) : list A :=
  drop (length (items b) - n) (items b).

Definition feed (b : t) (xs : list A) : t :=
  foldl (fun acc x => append x acc) b xs.
End Def.
Arguments t A : clear implicits.
End RingBuffer.

Inductive Channel : Type :=
| RotorSpeed | Voltage | VibrationX | VibrationY | VibrationZ
| Temperature | Pressure.

#[global] Instance Channel_eq_dec : EqDecision Channel.
Proof. solve_decision. Defined.

Definition channels : list Channel :=
  [RotorSpeed; Voltage; VibrationX; VibrationY; VibrationZ; Temperature; Pressure].

(** Modelled from the spec: the SensorSample of the data model (the
    simulator modules under app/ are absent): a timestamped vector of
    channel readings. *)
Record SensorSample : Type := mkSensorSample {
  timestamp : nat;
  readings : Channel -> Q
}.

(** Modelled from the spec: the Turbine of the data model (app/turbine.py
    is absent): an identifier, the recorded trace it replays, the number
    of ticks so far, a fault flag per channel and one ring buffer. *)
Record Turbine : Type := mkTurbine {
  turbine_id : nat;
  raw_trace : list (Channel -> Q);
  cursor : nat;
  faults : Channel -> bool;
  samples_buffer : RingBuffer.t SensorSample
}.

Section Simulator.
(** The out-of-range noise added to a faulty channel at a tick. *)
Variable noise : nat -> Channel -> Q.

(** Modelled from the spec: the generator of app/turbine.py (absent)
    replays the finite recorded trace and wraps around at its end. *)
Definition raw_at (t : Turbine) : Channel -> Q :=
  default (fun _ => 0%Q)
          (raw_trace t !! (cursor t mod length (raw_trace t))%nat).

(** Modelled from the spec: the sample the generator of
    app/turbine.py (absent) produces next; the fault flag of a channel
    adds noise to that channel's reading. *)
Definition generate (t : Turbine) : SensorSample :=
  mkSensorSample (cursor t)
    (fun c => if faults t c then (raw_at t c + noise (cursor t) c)%Q
              else raw_at t c).

(** Modelled from the spec: one tick of the generator loop of
    app/turbine.py (absent): the next sample goes into the buffer. *)
Definition tick (t : Turbine) : Turbine :=
  mkTurbine (turbine_id t) (raw_trace t) (Datatypes.S (cursor t)) (faults t)
            (RingBuffer.append (generate t) (samples_buffer t)).

Fixpoint ticks (n : nat) (t : Turbine) : Turbine :=
  match n with
  | O => t
  | Datatypes.S n' => ticks n' (tick t)
  end.

(** The next [n] samples the generator produces. *)
Fixpoint samples (n : nat) (t : Turbine) : list SensorSample :=
  match n with
  | O => []
  | Datatypes.S n' => generate t :: samples n' (tick t)
  end.

(** Modelled from the spec: fault injection on a turbine of
    app/turbine.py (absent) flips the boolean of one channel. *)
Definition turbine_inject_fault (c : Channel) (t : Turbine) : Turbine :=
  mkTurbine (turbine_id t) (raw_trace t) (cursor t)
            (fun c' => if decide (c' = c) then negb (faults t c') else faults t c')
            (samples_buffer t).

(** Modelled from the spec: the simulator of app/simulator.py (absent)
    owns the turbines, found by their identifier. *)
Definition new_turbine (cap : nat) (raw : list (Channel -> Q)) (id : nat) : Turbine :=
  mkTurbine id raw 0 (fun _ => false) (RingBuffer.empty cap).

Definition start (n cap : nat) (raw : list (Channel -> Q)) : list Turbine :=
  map (new_turbine cap raw) (seq 0 n).

(** Modelled from the spec: [inject_fault(turbine_id, channel)] of
    app/simulator.py (absent). *)
Definition inject_fault (id : nat) (c : Channel) (farm : list Turbine) : list Turbine :=
  map (fun t => if decide (turbine_id t = id) then turbine_inject_fault c t else t) farm.
End Simulator.

(** ** Wind farm controller *)

(** Modelled from the spec: the AnomalyEvent of the data model
    (app/windfarm.py is absent). *)
Record AnomalyEvent : Type := mkAnomalyEvent {
  ev_turbine : nat;
  ev_channel : Channel;
  ev_timestamp : nat;
  ev_error : Q;
  ev_threshold : Q
}.

(** Modelled from the spec: the comparison of the controller loop of
    app/windfarm.py (absent): the error exceeds the threshold. *)
Definition exceeds (err thr : Q) : bool := negb (Qle_bool err thr).

Section Controller.
(** The predict operation of the edge agent client on a window; [None]
    when the inference failed. *)
Variable predict_window : list SensorSample -> option (list SensorSample).
(** The per-channel distance between a window and its reconstruction. *)
Variable reconstruction_error : list SensorSample -> list SensorSample -> Channel -> Q.
Variable thresholds : Channel -> Q.
Variable window_size : nat.

(** Modelled from the spec: one pass of the consumption loop of
    app/windfarm.py (absent) over a turbine: read the latest window,
    predict, compute the error per channel, and publish an event for
    every channel whose error exceeds its threshold.  A failed
    inference is skipped for that tick. *)
Definition controller_tick (t : Turbine) : list AnomalyEvent :=
  let window := RingBuffer.latest_window window_size (samples_buffer t) in
  match predict_window window with
  | None => []
  | Some y =>
      let err := reconstruction_error window y in
      map (fun c => mkAnomalyEvent (turbine_id t) c (cursor t) (err c) (thresholds c))
          (List.filter (fun c => exceeds (err c) (thresholds c)) channels)
  end.

Definition flagged (c : Channel) (evs : list AnomalyEvent) : Prop :=
  exists ev, In ev evs /\ ev_channel ev = c.
End Controller.

(** ** Over-the-air listener *)

Module OTA.
(** Modelled from the spec: the ModelHandle of the data model
    (app/ota.py is absent). *)
Record ModelHandle : Type := mkModelHandle {
  mh_name : string;
  mh_version : string;
  mh_path : string
}.

#[global] Instance ModelHandle_eq_dec : EqDecision ModelHandle.
Proof. solve_decision. Defined.

(** Modelled from the spec: the states of the listener of app/ota.py
    (absent), Idle, Downloading and Swapping; the last two carry the
    package being deployed. *)
Inductive Phase : Type :=
| Idle
| Downloading (target : ModelHandle)
| Swapping (target : ModelHandle).

Inductive Signal : Type :=
| DeploymentMessage (target : ModelHandle)
| DownloadComplete
| DownloadFailed
| LoadSucceeded
| LoadFailed.

Inductive Event : Type :=
| DownloadError (target : ModelHandle)
| LoadError (target : ModelHandle).

Record Device : Type := mkDevice {
  phase : Phase;
  active : list ModelHandle;
  events : list Event
}.

(** Unloading a handle removes it from the active ones. *)
Definition unload (h : ModelHandle) (l : list ModelHandle) : list ModelHandle :=
  List.filter (fun m => negb (bool_decide (m = h))) l.

Definition unload_all (l : list ModelHandle) : list ModelHandle :=
  foldr unload l l.

Definition load (h : ModelHandle) (l : list ModelHandle) : list ModelHandle :=
  l ++ [h].

(** Modelled from the spec: the transitions of the listener of
    app/ota.py (absent).  A deployment message starts the download; a
    complete download starts the swap; a successful load unloads the
    old model, makes the new one active and returns to Idle; a failed
    download or load returns to Idle with an error event and stays on
    the prior version. *)
Definition step (d : Device) (s : Signal) : Device :=
  match phase d, s with
  | Idle, DeploymentMessage h => mkDevice (Downloading h) (active d) (events d)
  | Downloading h, DownloadComplete => mkDevice (Swapping h) (active d) (events d)
  | Downloading h, DownloadFailed =>
      mkDevice Idle (active d) (events d ++ [DownloadError h])
  | Swapping h, LoadSucceeded =>
      mkDevice Idle (load h (unload_all (active d))) (events d)
  | Swapping h, LoadFailed =>
      mkDevice Idle (active d) (events d ++ [LoadError h])
  | _, _ => d
  end.

Definition run (d : Device) (ss : list Signal) : Device := foldl step d ss.
End OTA.

(** ** A reference agent

    The agent itself is a vendor binary.  For examples a small agent
    stands in for it: it keeps the loaded models in a list, refuses every
    call while it is offline, checks the size of a request tensor against
    the model's input and answers a prediction with the tensors of the
    request, as an autoencoder that reconstructs its input without
    loss. *)

Module EchoAgent.
Record state : Type := mkState {
  online : bool;
  loaded : list Model
}.

Definition meta_in : TensorMetadata :=
  mkTensorMetadata (encode_utf8 "input") FLOAT32 [1; 2].

Definition meta_out : TensorMetadata :=
  mkTensorMetadata (encode_utf8 "output") FLOAT32 [1; 2].

Definition find_model (name : string) (s : state) : option Model :=
  List.find (fun m => String.eqb (m_name m) name) (loaded s).

Definition unavailable : PyExn := RpcError 14 "failed to connect to the agent".
Definition not_found : PyExn := RpcError 5 "model not found".
Definition already_loaded : PyExn := RpcError 6 "model already loaded".
Definition invalid_argument : PyExn := RpcError 3 "tensor size does not match".

Definition fits (m : Model) (t : Tensor) : bool :=
  match input_tensor_metadatas m with
  | meta :: _ =>
      Z.of_nat (length (byte_data t)) =? itemsize_float32 * prodZ (tm_shape meta)
  | [] => false
  end.

Definition answer {A} (s : state) (r : Outcome A * state) : Outcome A * state :=
  if online s then r else (Raise unavailable, s).

#[global] Instance stub : AgentStub state := {|
  ListModels s := answer s (Ret (mkListModelsResponse (loaded s)), s);
  LoadModel req s :=
    answer s
      match find_model (load_name req) s with
      | Some _ => (Raise already_loaded, s)
      | None =>
          let m := mkModel (load_url req) (load_name req) [meta_in] [meta_out] in
          (Ret (mkLoadModelResponse m), mkState (online s) (loaded s ++ [m]))
      end;
  UnLoadModel req s :=
    answer s
      match find_model (unload_name req) s with
      | Some _ =>
          (Ret tt,
           mkState (online s)
             (List.filter (fun m => negb (String.eqb (m_name m) (unload_name req)))
                          (loaded s)))
      | None => (Raise not_found, s)
      end;
  Predict req s :=
    answer s
      match find_model (predict_name req) s with
      | Some m =>
          if forallb (fits m) (predict_tensors req)
          then (Ret (mkPredictResponse (predict_tensors req)), s)
          else (Raise invalid_argument, s)
      | None => (Raise not_found, s)
      end;
  CaptureData req s := answer s (Ret tt, s)
|}.

Definition wind_name : string := "WindTurbineAnomalyDetection".

Definition wind_model : Model :=
  mkModel "agent/model/dev/WindTurbineAnomalyDetection/1.0" wind_name
          [meta_in] [meta_out].

Definition world (up : bool) (ms : list Model) : World state :=
  mkWorld (mkState up ms) [] [] 0.

(** Conversions to float32 are not exercised by the examples. *)
Definition no_cast (d : DType) (b : list byte) : list byte := b.

Definition no_uuid (n : nat) : string := "00000000-0000-4000-8000-000000000000".

(** A float32 array of shape (1, 2) and one of shape (1,). *)
Definition x12 : NDArray :=
  mkNDArray np_float32 [1; 2] [x00; x00; x80; x3f; x00; x00; x00; x40].

Definition x1 : NDArray :=
  mkNDArray np_float32 [1] [x00; x00; x80; x3f].
End EchoAgent.

(** ** Worlds after an event *)

(** The world after an exception has been printed. *)
Definition log_exn {St} (e : PyExn) (w : World St) : World St :=
  mkWorld (agent_state w) (rpc_log w) (stdout w ++ [e]) (uuid_seed w).

(** The world after a remote call has been answered. *)
Definition after_call {St} (c : RpcCall) (s : St) (w : World St) : World St :=
  mkWorld s (rpc_log w ++ [c]) (stdout w) (uuid_seed w).

(** The last [n] entries of a list. *)
Definition lastn {A} (n : nat) (l : list A) : list A := drop (length l - n) l.

(** ** A small wind farm

    Two turbines with buffers of two samples replay a trace of three
    recorded readings; a fault adds 100 to a reading.  The model
    reconstructs the nominal reading 2 on every channel, the error is the
    distance of the latest sample to its reconstruction, and every
    threshold is 1. *)

Module Demo.
Definition raw : list (Channel -> Q) :=
  [fun _ => 1%Q; fun _ => 2%Q; fun _ => 3%Q].

Definition noise (tick : nat) (c : Channel) : Q := 100%Q.

Definition t0 : Turbine := new_turbine 2 raw 0.

Definition farm : list Turbine := start 2 2 raw.

Definition nominal (s : SensorSample) : SensorSample :=
  mkSensorSample (timestamp s) (fun _ => 2%Q).

Definition predict_window (w : list SensorSample) : option (list SensorSample) :=
  Some (map nominal w).

Definition latest_reading (w : list SensorSample) (c : Channel) : Q :=
  match last w with
  | Some s => readings s c
  | None => 0%Q
  end.

Definition reconstruction_error (w y : list SensorSample) (c : Channel) : Q :=
  Qabs (latest_reading w c - latest_reading y c).

Definition thresholds (c : Channel) : Q := 1%Q.

(** After three ticks the latest reading is 3 on every channel: the
    error is 1, exactly the threshold. *)
Definition t3 : Turbine := ticks noise 3 t0.

(** The same with a fault on the voltage: the latest reading there is
    103 and the error 101. *)
Definition t3_faulty : Turbine := ticks noise 3 (turbine_inject_fault Voltage t0).

Definition v1 : OTA.ModelHandle :=
  OTA.mkModelHandle "WindTurbineAnomalyDetection" "1.0"
                    "agent/model/dev/WindTurbineAnomalyDetection/1.0".

Definition v2 : OTA.ModelHandle :=
  OTA.mkModelHandle "WindTurbineAnomalyDetection" "2.0"
                    "agent/model/dev/WindTurbineAnomalyDetection/2.0".

Definition device : OTA.Device := OTA.mkDevice OTA.Idle [v1] [].
End Demo.

(** A segment of eight bytes, created read/write and not attached. *)
Definition shm8 : SharedMemory :=
  mkSharedMemory 42 8 mode_rw false
    [xff; xff; xff; xff; xff; xff; xff; xff] [].

(** ** The cells that use the helper functions *)

(** An array as numpy holds it in float32: the dimensions are not
    negative and the buffer has four bytes per element. *)
Definition is_float32_array (a : NDArray) : Prop :=
  dtype a = np_float32 /\
  Forall (fun d => 0 <= d) (shape a) /\
  Z.of_nat (length (buffer a)) = itemsize_float32 * prodZ (shape a).

(** [np.frombuffer(b, dtype=np.float32).reshape(shape)]: how [predict]
    reads the answer of the agent and how the captured-data cell rebuilds
    the logged tensors. *)
Definition decode_float32 (b : list byte) (shp : list Z) : Outcome NDArray :=
  match np_frombuffer_float32 b with
  | Ret data => np_reshape data shp
  | Raise e => Raise e
  end.

(** [payload_size=4; for i in shape: payload_size *= i] *)
Definition payload_size (shp : list Z) : Z :=
  foldl (fun acc i => acc * i) 4 shp.

Definition is_list_models_call (c : RpcCall) : bool :=
  match c with CallListModels => true | _ => false end.

Definition is_capture_call (c : RpcCall) : bool :=
  match c with CallCaptureData _ => true | _ => false end.

(** An argument [capture_data] can turn into a tensor: a float32 array
    whose dimensions the int32 shape field takes. *)
Definition capturable (t : option NDArray) : Prop :=
  exists a, t = Some a /\ dtype a = np_float32 /\
            forallb int32_ok (shape a) = true.

(** The exceptions [create_tensor] has for an argument of [capture_data]. *)
Definition refusal (e : PyExn) : Prop :=
  e = AttributeError \/
  e = Exception "It only supports numpy float32 arrays for this tensor" \/
  e = ValueError "Value out of range".

Section Cells.
Context {St : Type} `{!AgentStub St}.
Variable cast_float32 : DType -> list byte -> list byte.
Variable uuid_of : nat -> string.

Local Open Scope py_scope.

(** [for i in range(n): y = predict(client, model_name, x)], the first
    loop of the stress test. *)
Fixpoint predict_loop (n : nat) (model_name : string) (x : PredictInput) (shm : bool)
  (y : option NDArray) : Py (World St) (option NDArray) :=
  match n with
  | O => ret y
  | Datatypes.S n' =>
      y' <- predict cast_float32 model_name x shm ;;
      predict_loop n' model_name x shm y'
  end.

(** [y = predict(client, model_name, x); capture_data(client, model_name,
    x, y); print(y.shape)]: the cell returns the shape it prints;
    [None.shape] is an [AttributeError]. *)
Definition predict_cell (model_name : string) (x : NDArray) : Py (World St) (list Z) :=
  y <- predict cast_float32 model_name (InArray x) false ;;
  capture_data uuid_of model_name (Some x) y ;;;
  match y with
  | Some a => ret (shape a)
  | None => raise AttributeError
  end.

(** A statement on the segment, in the world of the segment and the
    client. *)
Definition on_segment {A} (m : Py SharedMemory A) : Py (SharedMemory * World St) A :=
  fun '(sm, w) => let '(r, sm') := m sm in (r, (sm', w)).

(** A statement of the client that reads [sm.id]. *)
Definition on_client {A} (m : Z -> Py (World St) A) : Py (SharedMemory * World St) A :=
  fun '(sm, w) => let '(r, w') := m (sm_id sm) w in (r, (sm, w')).

(** [for i in range(n): write_to_shm(sm, x); y = predict(client,
    model_name, sm.id, True)], the second loop of the stress test. *)
Fixpoint shm_predict_loop (n : nat) (model_name : string) (x : NDArray)
  (y : option NDArray) : Py (SharedMemory * World St) (option NDArray) :=
  match n with
  | O => ret y
  | Datatypes.S n' =>
      on_segment (write_to_shm cast_float32 x) ;;;
      y' <- on_client (fun id => predict cast_float32 model_name (InSegment id) true) ;;
      shm_predict_loop n' model_name x y'
  end.
End Cells.

(** ** Waiting for a job of the service *)

(** What the polling loops leave on the console and how long they have
    slept. *)
Record Console : Type := mkConsole {
  console_lines : list string;
  slept_seconds : Z
}.

(** How a polling loop ends. *)
Inductive PollEnd : Type :=
| PollBreak (status : string)
| PollRuntimeError (msg : string).

Section Polling.
(** The status the service reports at its [k]-th answer. *)
Variable status_at : nat -> string.

Definition still_running (status : string) : bool :=
  String.eqb status "STARTING" || String.eqb status "INPROGRESS".

(** The loop that waits for a compilation or packaging job:
    [while True: resp = describe(...); if status in ['STARTING',
    'INPROGRESS']: print('Running...') else: print(status,
    compilation_job_name); break; time.sleep(5)].  The loop has no bound;
    [fuel] is the number of answers looked at, and [None] says that the
    loop is still running after them. *)
Fixpoint wait_while_running (fuel k : nat) (compilation_job_name : string)
  (c : Console) : option (PollEnd * Console) :=
  match fuel with
  | O => None
  | Datatypes.S fuel' =>
      let status := status_at k in
      if still_running status
      then wait_while_running fuel' (Datatypes.S k) compilation_job_name
             (mkConsole (console_lines c ++ ["Running..."]) (slept_seconds c + 5))
      else Some (PollBreak status,
                 mkConsole (console_lines c ++ [(status ++ " " ++ compilation_job_name)%string])
                           (slept_seconds c))
  end.

(** The loop of the Greengrass notebook: [while True: if status ==
    "COMPLETED": break elif status == "FAILED": raise
    RuntimeError("Edge Packaging failed"); print("Packaging ...");
    time.sleep(30)], followed by [print('Done')]. *)
Fixpoint wait_for_packaging (fuel k : nat) (c : Console) : option (PollEnd * Console) :=
  match fuel with
  | O => None
  | Datatypes.S fuel' =>
      let status := status_at k in
      if String.eqb status "COMPLETED"
      then Some (PollBreak status,
                 mkConsole (console_lines c ++ ["Done"]) (slept_seconds c))
      else if String.eqb status "FAILED"
           then Some (PollRuntimeError "Edge Packaging failed", c)
           else wait_for_packaging fuel' (Datatypes.S k)
                  (mkConsole (console_lines c ++ ["Packaging ..."]) (slept_seconds c + 30))
  end.
End Polling.

(** ** Names cut out of ARNs *)

(** [s.split(sep)] for a separator of one character. *)
Fixpoint split_on (sep : ascii) (s : string) : list string :=
  match s with
  | EmptyString => [EmptyString]
  | String c rest =>
      if Ascii.eqb c sep then EmptyString :: split_on sep rest
      else match split_on sep rest with
           | field :: fields => String c field :: fields
           | [] => [String c EmptyString]
           end
  end.

Fixpoint count_char (sep : ascii) (s : string) : nat :=
  match s with
  | EmptyString => O
  | String c rest => (if Ascii.eqb c sep then 1 else 0) + count_char sep rest
  end.

(** [cert_arn.split('/')[-1]] *)
Definition certificate_id (cert_arn : string) : Outcome string :=
  match last (split_on "/" cert_arn) with
  | Some field => Ret field
  | None => Raise IndexError
  end.

(** [role.split(":")[4]] *)
Definition account_id (role : string) : Outcome string :=
  match split_on ":" role !! 4%nat with
  | Some field => Ret field
  | None => Raise IndexError
  end.

(** The entry of a model in the dict of [list_models]. *)
Definition model_io (m : Model) : ModelIO :=
  mkModelIO (input_tensor_metadatas m) (output_tensor_metadatas m).

(** A status on which the packaging loop of the Greengrass notebook goes
    on polling. *)
Definition packaging_pending (status : string) : bool :=
  negb (String.eqb status "COMPLETED") && negb (String.eqb status "FAILED").

(** ** Examples of models, segments and jobs *)

Module Samples.
(** A model listed without a description of its outputs, and one
    without a description of its inputs. *)
Definition no_outputs : Model :=
  mkModel "agent/model/dev/WindTurbineAnomalyDetection/1.0" EchoAgent.wind_name
          [EchoAgent.meta_in] [].

Definition no_inputs : Model :=
  mkModel "agent/model/dev/WindTurbineAnomalyDetection/1.0" EchoAgent.wind_name
          [] [EchoAgent.meta_out].

(** An agent that lists the wind model and answers every prediction
    without any tensor. *)
Record silent : Type := mkSilent { silent_calls : nat }.

#[global] Instance silent_stub : AgentStub silent := {|
  ListModels s := (Ret (mkListModelsResponse [EchoAgent.wind_model]), s);
  LoadModel req s := (Raise EchoAgent.already_loaded, s);
  UnLoadModel req s := (Ret tt, s);
  Predict req s := (Ret (mkPredictResponse []), mkSilent (Datatypes.S (silent_calls s)));
  CaptureData req s := (Ret tt, s)
|}.

(** [np.array(7)]: an int64 array without dimensions. *)
Definition scalar7 : NDArray :=
  mkNDArray np_int64 [] [x07; x00; x00; x00; x00; x00; x00; x00].

(** A segment of four bytes, read-only and attached. *)
Definition shm4 : SharedMemory :=
  mkSharedMemory 43 4 mode_ro true [xff; xff; xff; xff] [].

(** A job that is in progress for two answers and then completed, one
    that fails after its first answer, and one that was stopped. *)
Definition completing (k : nat) : string :=
  if (k <? 2)%nat then "INPROGRESS" else "COMPLETED".

Definition failing (k : nat) : string :=
  if (k <? 1)%nat then "STARTING" else "FAILED".

Definition stopped (k : nat) : string := "STOPPED".

Definition console : Console := mkConsole [] 0.
End Samples.

(** * Properties *)

(** ** Statements and remote calls *)

Lemma append_all_app {A} (acc l : list A) : append_all acc l = acc ++ l.
Proof.
  unfold append_all. revert acc.
  induction l as [|s l IH]; intros acc; simpl.
  - now rewrite app_nil_r.
  - rewrite IH, <- app_assoc. reflexivity.
Qed.

Lemma append_all_nil {A} (l : list A) : append_all [] l = l.
Proof. apply append_all_app. Qed.

Section ClientFacts.
Context {St : Type} `{!AgentStub St}.
Variable cast_float32 : DType -> list byte -> list byte.
Variable uuid_of : nat -> string.

Lemma rpc_eq {Resp} (c : RpcCall) (h : St -> Outcome Resp * St) (w : World St) :
  rpc c h w = (fst (h (agent_state w)), after_call c (snd (h (agent_state w))) w).
Proof. unfold rpc, after_call. destruct (h (agent_state w)); reflexivity. Qed.

Lemma list_models_eq (w : World St) :
  list_models w =
  (match fst (ListModels (agent_state w)) with
   | Ret resp => Ret (models_dict (lm_models resp))
   | Raise e => Raise e
   end,
   after_call CallListModels (snd (ListModels (agent_state w))) w).
Proof.
  unfold list_models, bind. rewrite rpc_eq.
  destruct (ListModels (agent_state w)) as [[resp|e] s']; reflexivity.
Qed.

(** A [try] whose handler prints the exception and returns [None] never
    raises. *)
Lemma try_print_None {A} (body : Py (World St) (option A)) (w : World St) :
  try_except body (fun e => bind (print e) (fun _ => ret None)) w =
  match body w with
  | (Ret a, w') => (Ret a, w')
  | (Raise e, w') => (Ret None, log_exn e w')
  end.
Proof. unfold try_except. destruct (body w) as [[a|e] w']; reflexivity. Qed.

Lemma predict_eq (name : string) (x : PredictInput) (shm : bool) (w : World St) :
  predict cast_float32 name x shm w =
  match predict_body cast_float32 name x shm w with
  | (Ret y, w') => (Ret (Some y), w')
  | (Raise e, w') => (Ret None, log_exn e w')
  end.
Proof.
  unfold predict. rewrite try_print_None. unfold bind.
  destruct (predict_body cast_float32 name x shm w) as [[y|e] w']; reflexivity.
Qed.
(** Every branch of the client's code is a case on an outcome. *)
Ltac case_outcomes :=
  repeat match goal with
         | |- context [match ?o with Ret _ => _ | Raise _ => _ end] =>
             destruct o eqn:?; simpl
         | |- context [match ?o with Some _ => _ | None => _ end] =>
             destruct o eqn:?; simpl
         | |- context [let '(_, _) := ?p in _] => destruct p eqn:?; simpl
         | |- context [match ?p with (_, _) => _ end] => destruct p eqn:?; simpl
         end.

(** The remote calls [predict] adds to the log: one [ListModels], then
    at most one [Predict] for the model named. *)
Lemma predict_calls (name : string) (x : PredictInput) (shm : bool) (w : World St) :
  rpc_log (snd (predict cast_float32 name x shm w)) = rpc_log w ++ [CallListModels]
  \/ exists t,
      rpc_log (snd (predict cast_float32 name x shm w)) =
      rpc_log w ++ [CallListModels; CallPredict (mkPredictRequest name [t])].
Proof.
  rewrite predict_eq. unfold predict_body, bind. rewrite list_models_eq.
  destruct (ListModels (agent_state w)) as [[resp|e] s1]; simpl; [|now left].
  destruct (models_dict (lm_models resp) !! name) as [io|]; simpl; [|now left].
  unfold lift.
  destruct (index0 (io_in io)) as [meta|e]; simpl; [|now left].
  destruct (request_data cast_float32 x shm) as [data|e]; simpl; [|now left].
  rewrite rpc_eq.
  right. exists (mkTensor (request_metadata meta) data).
  case_outcomes; rewrite <- app_assoc; reflexivity.
Qed.

(** C5: [predict] never lets an exception reach its caller.  Its result
    is always a normal return; whenever the body of its [try] fails, the
    exception is printed and the result is [None].  This covers a failing
    [ListModels] call and a failing [Predict] call of the agent. *)
Theorem predict_never_raises
  (name : string) (x : PredictInput) (shm : bool) (w : World St) :
  is_raise (fst (predict cast_float32 name x shm w)) = false /\
  (forall e w1,
      predict_body cast_float32 name x shm w = (Raise e, w1) ->
      predict cast_float32 name x shm w = (Ret None, log_exn e w1)) /\
  (forall e s1,
      ListModels (agent_state w) = (Raise e, s1) ->
      predict cast_float32 name x shm w =
      (Ret None, log_exn e (after_call CallListModels s1 w))) /\
  (forall resp s1 io meta data e s2,
      ListModels (agent_state w) = (Ret resp, s1) ->
      models_dict (lm_models resp) !! name = Some io ->
      index0 (io_in io) = Ret meta ->
      request_data cast_float32 x shm = Ret data ->
      Predict (mkPredictRequest name [mkTensor (request_metadata meta) data]) s1
      = (Raise e, s2) ->
      predict cast_float32 name x shm w =
      (Ret None,
       log_exn e
         (after_call
            (CallPredict (mkPredictRequest name [mkTensor (request_metadata meta) data]))
            s2 (after_call CallListModels s1 w)))).
Proof.
  repeat split.
  - rewrite predict_eq.
    destruct (predict_body cast_float32 name x shm w) as [[y|e] w']; reflexivity.
  - intros e w1 Hbody. rewrite predict_eq, Hbody. reflexivity.
  - intros e s1 Hlist. rewrite predict_eq.
    unfold predict_body, bind. rewrite list_models_eq, Hlist. reflexivity.
  - intros resp s1 io meta data e s2 Hlist Hio Hmeta Hdata Hpred.
    rewrite predict_eq.
    unfold predict_body, bind. rewrite list_models_eq, Hlist. simpl.
    rewrite Hio. unfold lift. rewrite Hmeta, Hdata, rpc_eq. simpl.
    rewrite Hpred. reflexivity.
Qed.

(** C8: when the dict [list_models] returns has no entry for the model
    name, [predict] prints the "not loaded" exception and returns [None];
    the only remote call it has made is the [ListModels] of
    [list_models], so no [Predict] request reaches the agent. *)
Theorem predict_unloaded_model
  (name : string) (x : PredictInput) (shm : bool) (w w1 : World St)
  (model_map : gmap string ModelIO) :
  list_models w = (Ret model_map, w1) ->
  model_map !! name = None ->
  predict cast_float32 name x shm w =
  (Ret None, log_exn (Exception ("Model " ++ name ++ " not loaded")%string) w1) /\
  rpc_log (snd (predict cast_float32 name x shm w)) = rpc_log w ++ [CallListModels] /\
  existsb is_predict_call
    (drop (length (rpc_log w)) (rpc_log (snd (predict cast_float32 name x shm w))))
  = false.
Proof.
  intros Hlist Hnone.
  assert (Hp : predict cast_float32 name x shm w =
               (Ret None, log_exn (Exception ("Model " ++ name ++ " not loaded")%string) w1)).
  { rewrite predict_eq. unfold predict_body, bind. rewrite Hlist, Hnone. reflexivity. }
  assert (Hlog : rpc_log w1 = rpc_log w ++ [CallListModels]).
  { rewrite list_models_eq in Hlist. inversion Hlist; subst. reflexivity. }
  rewrite Hp. simpl. rewrite Hlog. repeat split.
  rewrite drop_app_length. reflexivity.
Qed.

End ClientFacts.

Example echo_predict :
  predict EchoAgent.no_cast EchoAgent.wind_name (InArray EchoAgent.x12) false
          (EchoAgent.world true [EchoAgent.wind_model])
  = (Ret (Some EchoAgent.x12),
     mkWorld (EchoAgent.mkState true [EchoAgent.wind_model])
       [CallListModels;
        CallPredict (mkPredictRequest EchoAgent.wind_name
                       [mkTensor EchoAgent.meta_in (ByteData (buffer EchoAgent.x12))])]
       [] 0).
Proof. vm_compute. reflexivity. Qed.

Example echo_predict_offline :
  predict EchoAgent.no_cast EchoAgent.wind_name (InArray EchoAgent.x12) false
          (EchoAgent.world false [EchoAgent.wind_model])
  = (Ret None,
     mkWorld (EchoAgent.mkState false [EchoAgent.wind_model])
       [CallListModels] [EchoAgent.unavailable] 0).
Proof. vm_compute. reflexivity. Qed.

Lemma predict_never_raises_witness :
  predict EchoAgent.no_cast EchoAgent.wind_name (InArray EchoAgent.x12) false
          (EchoAgent.world false [EchoAgent.wind_model])
  = (Ret None,
     mkWorld (EchoAgent.mkState false [EchoAgent.wind_model])
       [CallListModels] [EchoAgent.unavailable] 0)
  /\
  predict EchoAgent.no_cast EchoAgent.wind_name (InArray EchoAgent.x1) false
          (EchoAgent.world true [EchoAgent.wind_model])
  = (Ret None,
     mkWorld (EchoAgent.mkState true [EchoAgent.wind_model])
       [CallListModels;
        CallPredict (mkPredictRequest EchoAgent.wind_name
                       [mkTensor EchoAgent.meta_in (ByteData (buffer EchoAgent.x1))])]
       [EchoAgent.invalid_argument] 0)
  /\
  predict EchoAgent.no_cast EchoAgent.wind_name (InArray EchoAgent.x12) false
          (EchoAgent.world true [])
  = (Ret None,
     mkWorld (EchoAgent.mkState true [])
       [CallListModels]
       [Exception "Model WindTurbineAnomalyDetection not loaded"] 0).
Proof.
  pose proof (predict_never_raises EchoAgent.no_cast EchoAgent.wind_name
                (InArray EchoAgent.x12) false
                (EchoAgent.world false [EchoAgent.wind_model]))
    as (_ & _ & Hlist & _).
  pose proof (predict_never_raises EchoAgent.no_cast EchoAgent.wind_name
                (InArray EchoAgent.x1) false
                (EchoAgent.world true [EchoAgent.wind_model]))
    as (_ & _ & _ & Hpredict).
  pose proof (predict_never_raises EchoAgent.no_cast EchoAgent.wind_name
                (InArray EchoAgent.x12) false (EchoAgent.world true []))
    as (_ & Hbody & _ & _).
  split; [|split].
  - apply (Hlist EchoAgent.unavailable (EchoAgent.mkState false [EchoAgent.wind_model])).
    reflexivity.
  - apply (Hpredict (mkListModelsResponse [EchoAgent.wind_model])
             (EchoAgent.mkState true [EchoAgent.wind_model])
             (mkModelIO [EchoAgent.meta_in] [EchoAgent.meta_out])
             EchoAgent.meta_in (ByteData (buffer EchoAgent.x1))
             EchoAgent.invalid_argument
             (EchoAgent.mkState true [EchoAgent.wind_model]));
      vm_compute; reflexivity.
  - apply (Hbody (Exception "Model WindTurbineAnomalyDetection not loaded")
             (mkWorld (EchoAgent.mkState true []) [CallListModels] [] 0)).
    vm_compute. reflexivity.
Defined.

Lemma predict_unloaded_model_witness :
  predict EchoAgent.no_cast EchoAgent.wind_name (InArray EchoAgent.x12) false
          (EchoAgent.world true [])
  = (Ret None,
     mkWorld (EchoAgent.mkState true []) [CallListModels]
       [Exception "Model WindTurbineAnomalyDetection not loaded"] 0).
Proof.
  apply (predict_unloaded_model EchoAgent.no_cast EchoAgent.wind_name
           (InArray EchoAgent.x12) false (EchoAgent.world true [])
           (mkWorld (EchoAgent.mkState true []) [CallListModels] [] 0) ∅).
  - vm_compute. reflexivity.
  - vm_compute. reflexivity.
Defined.

(** C7 (as stated) fails for [predict]: with the model loaded it makes
    two remote calls, [ListModels] and then [Predict]. *)
Lemma predict_makes_two_calls :
  ~ (exists c,
        rpc_log (snd (predict EchoAgent.no_cast EchoAgent.wind_name
                        (InArray EchoAgent.x12) false
                        (EchoAgent.world true [EchoAgent.wind_model])))
        = rpc_log (EchoAgent.world true [EchoAgent.wind_model]) ++ [c]).
Proof. intros [c Hc]. vm_compute in Hc. discriminate Hc. Qed.

(** [capture_data] makes no call at all when [predict] has handed it
    [None], and never hands back the agent's answer. *)
Example capture_data_of_None :
  capture_data EchoAgent.no_uuid EchoAgent.wind_name (Some EchoAgent.x12) None
               (EchoAgent.world true [EchoAgent.wind_model])
  = (Ret tt,
     mkWorld (EchoAgent.mkState true [EchoAgent.wind_model]) [] [AttributeError] 1).
Proof. vm_compute. reflexivity. Qed.

(** ** Tensors *)

Lemma append_int32_ok (acc l : list Z) :
  forallb int32_ok l = true -> append_int32 acc l = Ret (acc ++ l).
Proof.
  revert acc. induction l as [|s l IH]; intros acc Hok; simpl in *.
  - now rewrite app_nil_r.
  - apply andb_true_iff in Hok as [Hs Hl]. rewrite Hs, IH by exact Hl.
    now rewrite <- app_assoc.
Qed.

Lemma append_int32_bad (acc l : list Z) :
  forallb int32_ok l = false ->
  append_int32 acc l = Raise (ValueError "Value out of range").
Proof.
  revert acc. induction l as [|s l IH]; intros acc Hbad; simpl in *.
  - discriminate Hbad.
  - destruct (int32_ok s); [now apply IH|reflexivity].
Qed.

(** C9 (as stated) fails on a float32 array with a dimension beyond the
    int32 range of the shape field: the array of shape (2**31, 0) holds
    no element, and appending its first dimension raises. *)
Lemma create_tensor_huge_dimension :
  ~ (is_raise (create_tensor (mkNDArray np_float32 [2147483648; 0] []) "input") = true
     <-> dtype (mkNDArray np_float32 [2147483648; 0] []) <> np_float32).
Proof. intros [Hraise _]. now apply Hraise. Qed.

(** C9 (amended): [create_tensor] raises exactly when the array is not
    float32 or one of its dimensions is out of the range of the int32
    shape field; on a float32 array with dimensions in that range it
    returns a tensor named by the (encoded) tensor name, with the array's
    shape and the array's raw bytes. *)
Theorem create_tensor_raises_iff (x : NDArray) (tensor_name : string) :
  (is_raise (create_tensor x tensor_name) = true
   <-> dtype x <> np_float32 \/ forallb int32_ok (shape x) = false) /\
  (dtype x = np_float32 ->
   forallb int32_ok (shape x) = true ->
   exists t,
     create_tensor x tensor_name = Ret t /\
     tm_name (tensor_metadata t) = encode_utf8 tensor_name /\
     tm_shape (tensor_metadata t) = shape x /\
     byte_data t = tobytes x).
Proof.
  unfold create_tensor. split.
  - destruct (decide (dtype x <> np_float32)) as [Hne|Heq]; simpl; [tauto|].
    destruct (forallb int32_ok (shape x)) eqn:Hdims.
    + rewrite append_int32_ok by exact Hdims. simpl.
      split; [discriminate|]. intros [Hne|Hbad]; [contradiction|discriminate].
    + rewrite append_int32_bad by exact Hdims. simpl. tauto.
  - intros Hf Hdims.
    destruct (decide (dtype x <> np_float32)) as [Hne|_]; [contradiction|].
    rewrite append_int32_ok by exact Hdims.
    eexists. split; [reflexivity|]. repeat split.
Qed.

Lemma create_tensor_raises_iff_witness :
  exists t,
    create_tensor EchoAgent.x12 "input" = Ret t /\
    tm_name (tensor_metadata t) = encode_utf8 "input" /\
    tm_shape (tensor_metadata t) = [1; 2] /\
    byte_data t = [x00; x00; x80; x3f; x00; x00; x00; x40].
Proof.
  apply (create_tensor_raises_iff EchoAgent.x12 "input"); reflexivity.
Defined.

Example create_tensor_float64 :
  create_tensor (mkNDArray np_float64 [1] [x00; x00; x00; x00; x00; x00; xf0; x3f]) "input"
  = Raise (Exception "It only supports numpy float32 arrays for this tensor").
Proof. reflexivity. Qed.

(** ** Shared memory *)

(** [write_to_shm] returns whenever the float32 bytes fit the segment. *)
Lemma write_to_shm_returns
  (cast_float32 : DType -> list byte -> list byte)
  (payload : NDArray) (sm : SharedMemory) :
  (length (tobytes (astype_float32 cast_float32 payload)) <= sm_size sm)%nat ->
  exists sm', write_to_shm cast_float32 payload sm = (Ret tt, sm').
Proof.
  intros Hfit. unfold write_to_shm, bind, ret, sm_detach, sm_set_mode, sm_attach, sm_write.
  destruct (sm_attached sm); simpl;
    (destruct (Nat.ltb_spec (sm_size sm)
                 (length (tobytes (astype_float32 cast_float32 payload))));
     [lia|eexists; reflexivity]).
Qed.

(** C10 (as stated) fails on a segment longer than the payload: the
    write returns, and the bytes behind the payload are still in the
    segment, which is then not exactly the payload's bytes. *)
Lemma write_to_shm_leaves_tail :
  ~ (forall sm',
        write_to_shm EchoAgent.no_cast EchoAgent.x1 shm8 = (Ret tt, sm') ->
        sm_bytes sm' = tobytes (astype_float32 EchoAgent.no_cast EchoAgent.x1)).
Proof. intros Hall. specialize (Hall _ eq_refl). discriminate Hall. Qed.

(** C10 (amended): after [write_to_shm] has returned, the segment holds the
    float32 bytes of the payload from its start (all of the segment when
    the sizes agree, the bytes behind them as before) and its mode is
    read-only; the mode was set to read/write before the segment was
    attached and written, and back to read-only right after the
    write. *)
Theorem write_to_shm_contents
  (cast_float32 : DType -> list byte -> list byte)
  (payload : NDArray) (sm sm' : SharedMemory) :
  write_to_shm cast_float32 payload sm = (Ret tt, sm') ->
  let b := tobytes (astype_float32 cast_float32 payload) in
  take (length b) (sm_bytes sm') = b /\
  drop (length b) (sm_bytes sm') = drop (length b) (sm_bytes sm) /\
  (length (sm_bytes sm) = length b -> sm_bytes sm' = b) /\
  sm_mode sm' = mode_ro /\
  sm_events sm' =
    sm_events sm ++ (if sm_attached sm then [EvDetach] else []) ++
    [EvSetMode mode_rw; EvAttach; EvWrite mode_rw b; EvSetMode mode_ro].
Proof.
  intros Hw b.
  unfold write_to_shm, bind, ret, sm_detach, sm_set_mode, sm_attach, sm_write in Hw.
  fold b in Hw.
  assert (Hbytes : sm_bytes sm' = b ++ drop (length b) (sm_bytes sm) /\
                   sm_mode sm' = mode_ro /\
                   sm_events sm' =
                     sm_events sm ++ (if sm_attached sm then [EvDetach] else []) ++
                     [EvSetMode mode_rw; EvAttach; EvWrite mode_rw b; EvSetMode mode_ro]).
  { destruct (sm_attached sm); simpl in Hw;
      destruct (sm_size sm <? length b)%nat; simpl in Hw;
      try discriminate Hw;
      inversion Hw; subst sm'; simpl; unfold sm_record; simpl;
      repeat rewrite <- app_assoc; simpl; repeat split. }
  destruct Hbytes as (Hb & Hmode & Hev).
  repeat split; try assumption.
  - rewrite Hb. apply take_app_length.
  - rewrite Hb. rewrite drop_app_length. reflexivity.
  - intros Hlen. rewrite Hb, <- Hlen, drop_all. apply app_nil_r.
Qed.


Lemma write_to_shm_contents_witness :
  sm_bytes (snd (write_to_shm EchoAgent.no_cast EchoAgent.x12 shm8))
  = [x00; x00; x80; x3f; x00; x00; x00; x40] /\
  sm_mode (snd (write_to_shm EchoAgent.no_cast EchoAgent.x12 shm8)) = mode_ro.
Proof.
  pose proof (write_to_shm_contents EchoAgent.no_cast EchoAgent.x12 shm8
                (snd (write_to_shm EchoAgent.no_cast EchoAgent.x12 shm8)))
    as Hw.
  destruct Hw as (_ & _ & Hall & Hmode & _); [reflexivity|].
  split; [apply Hall; reflexivity|exact Hmode].
Defined.

(** A payload shorter than the segment leaves the bytes behind it. *)
Example write_to_shm_shorter_payload :
  sm_bytes (snd (write_to_shm EchoAgent.no_cast EchoAgent.x1 shm8))
  = [x00; x00; x80; x3f; xff; xff; xff; xff].
Proof. reflexivity. Qed.

(** A payload longer than the segment makes [sm.write] raise, and the
    mode stays read/write. *)
Example write_to_shm_too_long :
  let sm := mkSharedMemory 42 4 mode_ro true [xff; xff; xff; xff] [] in
  is_raise (fst (write_to_shm EchoAgent.no_cast EchoAgent.x12 sm)) = true /\
  sm_mode (snd (write_to_shm EchoAgent.no_cast EchoAgent.x12 sm)) = mode_rw.
Proof. split; reflexivity. Qed.

(** ** Ring buffer *)

Section RingBufferFacts.
Context {A : Type}.
Implicit Types (b : RingBuffer.t A) (l xs : list A) (x : A).

Lemma lastn_length n l : length (lastn n l) = Nat.min n (length l).
Proof. unfold lastn. rewrite length_drop. lia. Qed.

Lemma lastn_snoc n l x : lastn n (lastn n l ++ [x]) = lastn n (l ++ [x]).
Proof.
  unfold lastn. rewrite !length_app, length_drop. simpl.
  destruct (Nat.le_gt_cases (length l) n) as [Hle|Hgt].
  - replace (length l - n)%nat with 0%nat by lia. rewrite drop_0.
    now replace (length l - 0 + 1 - n)%nat with (length l + 1 - n)%nat by lia.
  - destruct n as [|n].
    + rewrite !drop_ge; try reflexivity; rewrite length_app; simpl;
        try rewrite length_drop; lia.
    + rewrite !drop_app_le by (try rewrite length_drop; lia).
      rewrite drop_drop. f_equal. f_equal. lia.
Qed.

Lemma append_items x b :
  RingBuffer.items (RingBuffer.append x b)
  = lastn (RingBuffer.capacity b) (RingBuffer.items b ++ [x]).
Proof. unfold RingBuffer.append, lastn. simpl. now rewrite length_app. Qed.

Lemma feed_capacity b xs :
  RingBuffer.capacity (RingBuffer.feed b xs) = RingBuffer.capacity b.
Proof.
  unfold RingBuffer.feed. revert b.
  induction xs as [|x xs IH]; intros b; simpl; [reflexivity|].
  now rewrite IH.
Qed.

Lemma feed_snoc b xs x :
  RingBuffer.feed b (xs ++ [x]) = RingBuffer.append x (RingBuffer.feed b xs).
Proof. unfold RingBuffer.feed. now rewrite foldl_snoc. Qed.

(** Feeding samples keeps the last [capacity] of everything seen. *)
Lemma feed_items b xs :
  (RingBuffer.size b <= RingBuffer.capacity b)%nat ->
  RingBuffer.items (RingBuffer.feed b xs)
  = lastn (RingBuffer.capacity b) (RingBuffer.items b ++ xs).
Proof.
  intros Hwf. induction xs as [|x xs IH] using rev_ind.
  - simpl. rewrite app_nil_r. unfold lastn, RingBuffer.size in *.
    replace (length (RingBuffer.items b) - RingBuffer.capacity b)%nat with 0%nat by lia.
    now rewrite drop_0.
  - rewrite feed_snoc, append_items, feed_capacity, IH, app_assoc.
    apply lastn_snoc.
Qed.

Lemma append_size x b :
  (RingBuffer.size (RingBuffer.append x b) <= RingBuffer.capacity (RingBuffer.append x b))%nat.
Proof.
  unfold RingBuffer.size. rewrite append_items, lastn_length. simpl. lia.
Qed.

Lemma feed_size b xs :
  (RingBuffer.size b <= RingBuffer.capacity b)%nat ->
  (RingBuffer.size (RingBuffer.feed b xs) <= RingBuffer.capacity b)%nat.
Proof.
  intros Hwf. unfold RingBuffer.size in *.
  rewrite feed_items, lastn_length by exact Hwf. lia.
Qed.

Lemma lastn_app_ge n l xs : (n <= length xs)%nat -> lastn n (l ++ xs) = lastn n xs.
Proof.
  intros Hn. unfold lastn. rewrite length_app.
  rewrite drop_app_ge by lia. f_equal. lia.
Qed.

Lemma feed_items_nonempty b xs :
  xs <> [] ->
  RingBuffer.items (RingBuffer.feed b xs)
  = lastn (RingBuffer.capacity b) (RingBuffer.items b ++ xs).
Proof.
  induction xs as [|x xs IH] using rev_ind; [congruence|]. intros _.
  rewrite feed_snoc, append_items, feed_capacity.
  destruct xs as [|y ys].
  - reflexivity.
  - rewrite IH by discriminate. rewrite app_assoc. apply lastn_snoc.
Qed.
End RingBufferFacts.

(** ** Turbines *)

Section TurbineFacts.
Variable noise : nat -> Channel -> Q.

Lemma ticks_fields n t :
  turbine_id (ticks noise n t) = turbine_id t /\
  raw_trace (ticks noise n t) = raw_trace t /\
  cursor (ticks noise n t) = (cursor t + n)%nat /\
  faults (ticks noise n t) = faults t.
Proof.
  revert t. induction n as [|n IH]; intros t; simpl.
  - repeat split; lia.
  - destruct (IH (tick noise t)) as (Hid & Hraw & Hcur & Hf).
    rewrite Hid, Hraw, Hcur, Hf. simpl. repeat split; lia.
Qed.

Lemma samples_length n t : length (samples noise n t) = n.
Proof. revert t. induction n as [|n IH]; intros t; simpl; [reflexivity|]. now rewrite IH. Qed.

(** The [k]-th of the next samples is the one generated after [k] ticks. *)
Lemma samples_lookup n t k s :
  samples noise n t !! k = Some s <-> (k < n)%nat /\ s = generate noise (ticks noise k t).
Proof.
  revert t k. induction n as [|n IH]; intros t k; simpl.
  - split; [discriminate|]. intros [Hk _]. lia.
  - destruct k as [|k]; simpl.
    + split; [intros [= <-]; split; [lia|reflexivity]|intros [_ ->]; reflexivity].
    + rewrite IH. split; intros [Hk ->]; (split; [lia|reflexivity]).
Qed.

(** The buffer after [n] ticks has been fed the [n] samples generated. *)
Lemma ticks_buffer n t :
  samples_buffer (ticks noise n t)
  = RingBuffer.feed (samples_buffer t) (samples noise n t).
Proof.
  revert t. induction n as [|n IH]; intros t; simpl; [reflexivity|].
  now rewrite IH.
Qed.

(** C2: once more ticks have passed than the buffer's capacity, the
    turbine's ring buffer holds exactly the most recent [capacity]
    samples; appending to a full buffer drops the oldest entry and puts
    the new one last; and a buffer that starts within its capacity stays
    within it whatever is appended. *)
Theorem ring_buffer_most_recent
  (t : Turbine) (n : nat) (b : RingBuffer.t SensorSample)
  (x : SensorSample) (xs : list SensorSample) :
  let cap := RingBuffer.capacity (samples_buffer t) in
  ((cap < n)%nat ->
   RingBuffer.items (samples_buffer (ticks noise n t))
   = drop (n - cap) (samples noise n t) /\
   RingBuffer.size (samples_buffer (ticks noise n t)) = cap) /\
  (RingBuffer.size b = RingBuffer.capacity b -> (0 < RingBuffer.capacity b)%nat ->
   RingBuffer.items (RingBuffer.append x b) = drop 1 (RingBuffer.items b) ++ [x] /\
   RingBuffer.size (RingBuffer.append x b) = RingBuffer.capacity b) /\
  ((RingBuffer.size b <= RingBuffer.capacity b)%nat ->
   (RingBuffer.size (RingBuffer.feed b xs) <= RingBuffer.capacity b)%nat).
Proof.
  intros cap. split; [|split].
  - intros Hn.
    assert (Hitems : RingBuffer.items (samples_buffer (ticks noise n t))
                     = drop (n - cap) (samples noise n t)).
    { rewrite ticks_buffer, feed_items_nonempty.
      - fold cap. rewrite lastn_app_ge by (rewrite samples_length; lia).
        unfold lastn. now rewrite samples_length.
      - intros Hnil. apply (f_equal length) in Hnil.
        rewrite samples_length in Hnil. simpl in Hnil. lia. }
    split; [exact Hitems|].
    unfold RingBuffer.size. rewrite Hitems, length_drop, samples_length. lia.
  - intros Hfull Hpos. unfold RingBuffer.size in *.
    assert (Hitems : RingBuffer.items (RingBuffer.append x b)
                     = drop 1 (RingBuffer.items b) ++ [x]).
    { rewrite append_items. unfold lastn. rewrite length_app. simpl.
      replace (length (RingBuffer.items b) + 1 - RingBuffer.capacity b)%nat
        with 1%nat by lia.
      apply drop_app_le. lia. }
    split; [exact Hitems|].
    rewrite Hitems, length_app, length_drop. simpl. lia.
  - apply feed_size.
Qed.

Lemma generate_readings t c :
  readings (generate noise t) c
  = if faults t c then (raw_at t c + noise (cursor t) c)%Q else raw_at t c.
Proof. reflexivity. Qed.

Lemma raw_at_ext t1 t2 :
  raw_trace t1 = raw_trace t2 -> cursor t1 = cursor t2 -> raw_at t1 = raw_at t2.
Proof. intros Hraw Hcur. unfold raw_at. now rewrite Hraw, Hcur. Qed.

Lemma inject_fault_lookup id c farm i :
  inject_fault id c farm !! i
  = (fun t => if decide (turbine_id t = id) then turbine_inject_fault c t else t)
      <$> farm !! i.
Proof. unfold inject_fault. apply list_lookup_fmap. Qed.

(** C6: after [inject_fault id c], every later sample of every turbine
    has the readings it would have had without the injection on all
    channels but [c] of turbine [id]; on that channel the flag is
    flipped from the very next sample on, so noise is added where it was
    not before (and no longer added where it was). *)
Theorem inject_fault_frame
  (farm : list Turbine) (id : nat) (c : Channel)
  (i : nat) (t : Turbine) (n k : nat) (s : SensorSample) :
  farm !! i = Some t ->
  samples noise n t !! k = Some s ->
  exists t' s',
    inject_fault id c farm !! i = Some t' /\
    samples noise n t' !! k = Some s' /\
    timestamp s' = timestamp s /\
    (forall c', turbine_id t <> id \/ c' <> c -> readings s' c' = readings s c') /\
    (turbine_id t = id ->
     readings s' c
     = if faults t c then raw_at (ticks noise k t) c
       else (raw_at (ticks noise k t) c + noise (timestamp s) c)%Q).
Proof.
  intros Hi Hs.
  apply samples_lookup in Hs as [Hk ->].
  set (t' := if decide (turbine_id t = id) then turbine_inject_fault c t else t).
  exists t', (generate noise (ticks noise k t')).
  destruct (ticks_fields k t) as (Hid & Hraw & Hcur & Hf).
  destruct (ticks_fields k t') as (Hid' & Hraw' & Hcur' & Hf').
  assert (Hsame : raw_trace t' = raw_trace t /\ cursor t' = cursor t).
  { unfold t'. destruct (decide (turbine_id t = id)); split; reflexivity. }
  destruct Hsame as [Hr Hc].
  assert (Hbase : raw_at (ticks noise k t') = raw_at (ticks noise k t)).
  { apply raw_at_ext; congruence. }
  split; [rewrite inject_fault_lookup, Hi; reflexivity|].
  split; [apply samples_lookup; split; [exact Hk|reflexivity]|].
  split; [simpl; congruence|].
  split.
  - intros c' Hc'. rewrite !generate_readings, Hbase, Hf, Hf', Hcur, Hcur', Hc.
    unfold t'. destruct (decide (turbine_id t = id)) as [Heq|Hne]; [|reflexivity].
    simpl. destruct (decide (c' = c)) as [->|_]; [|reflexivity].
    destruct Hc' as [Hc'|Hc']; contradiction.
  - intros Heq. rewrite generate_readings, Hbase, Hf', Hcur', Hc.
    unfold t'. destruct (decide (turbine_id t = id)) as [_|Hne]; [|contradiction].
    simpl. destruct (decide (c = c)) as [_|Hne]; [|contradiction].
    rewrite Hcur. destruct (faults t c); reflexivity.
Qed.
End TurbineFacts.

(** ** Controller *)

Lemma exceeds_lt (err thr : Q) : exceeds err thr = true <-> (thr < err)%Q.
Proof.
  unfold exceeds. rewrite negb_true_iff, <- not_true_iff_false, Qle_bool_iff.
  split; [apply Qnot_le_lt|apply Qlt_not_le].
Qed.

Lemma channels_complete (c : Channel) : In c channels.
Proof. destruct c; simpl; tauto. Qed.

Section ControllerFacts.
Variable predict_window : list SensorSample -> option (list SensorSample).
Variable reconstruction_error : list SensorSample -> list SensorSample -> Channel -> Q.
Variable thresholds : Channel -> Q.
Variable window_size : nat.

(** C1: on a tick whose inference succeeded, the controller flags a
    channel exactly when the channel's reconstruction error is strictly
    above the channel's threshold; an error equal to the threshold does
    not flag. *)
Theorem anomaly_iff_exceeds (t : Turbine) (y : list SensorSample) (c : Channel) :
  let window := RingBuffer.latest_window window_size (samples_buffer t) in
  let evs := controller_tick predict_window reconstruction_error thresholds window_size t in
  predict_window window = Some y ->
  (flagged c evs <-> (thresholds c < reconstruction_error window y c)%Q) /\
  ((reconstruction_error window y c == thresholds c)%Q -> ~ flagged c evs).
Proof.
  intros window evs Hy.
  assert (Hiff : flagged c evs <-> (thresholds c < reconstruction_error window y c)%Q).
  { unfold evs, controller_tick, flagged. fold window. rewrite Hy. split.
    - intros (ev & Hin & Hc). apply in_map_iff in Hin as (c0 & <- & Hin).
      apply filter_In in Hin as [_ Hex]. simpl in Hc. subst c0.
      now apply exceeds_lt.
    - intros Hlt. eexists. split.
      + apply in_map_iff. exists c. split; [reflexivity|].
        apply filter_In. split; [apply channels_complete|now apply exceeds_lt].
      + reflexivity. }
  split; [exact Hiff|].
  intros Heq Hflag. apply Hiff in Hflag. rewrite Heq in Hflag.
  exact (Qlt_irrefl _ Hflag).
Qed.
End ControllerFacts.

(** ** Over-the-air listener *)

Module OTAFacts.
Import OTA.

Lemma unload_In (h x : ModelHandle) (l : list ModelHandle) :
  In x (unload h l) <-> In x l /\ x <> h.
Proof.
  unfold unload. rewrite filter_In, negb_true_iff, bool_decide_eq_false. tauto.
Qed.

Lemma foldr_unload_In (x : ModelHandle) (hs l : list ModelHandle) :
  In x (foldr unload l hs) <-> In x l /\ ~ In x hs.
Proof.
  induction hs as [|h hs IH]; simpl.
  - tauto.
  - rewrite unload_In, IH. intuition congruence.
Qed.

Lemma unload_all_nil (l : list ModelHandle) : unload_all l = [].
Proof.
  unfold unload_all. destruct (foldr unload l l) as [|x r] eqn:Hf; [reflexivity|].
  assert (Hx : In x (foldr unload l l)) by (rewrite Hf; now left).
  apply foldr_unload_In in Hx. tauto.
Qed.

(** A step keeps the number of active handles at one at most. *)
Lemma step_at_most_one (d : Device) (s : Signal) :
  (length (active d) <= 1)%nat -> (length (active (step d s)) <= 1)%nat.
Proof.
  intros Hd. unfold step.
  destruct (phase d), s; simpl; try exact Hd.
  rewrite unload_all_nil. simpl. lia.
Qed.

Lemma run_at_most_one (d : Device) (ss : list Signal) :
  (length (active d) <= 1)%nat -> (length (active (run d ss)) <= 1)%nat.
Proof.
  unfold run. revert d. induction ss as [|s ss IH]; intros d Hd; simpl.
  - exact Hd.
  - apply IH, step_at_most_one, Hd.
Qed.

(** C3: a device that starts with at most one active model has at most
    one active model at every observation point, that is after every
    prefix of the signals it receives, the ones in the middle of a swap
    included; a successful swap leaves the new version as the only
    active one. *)
Theorem at_most_one_active (d : Device) (ss : list Signal) (k : nat) :
  (length (active d) <= 1)%nat ->
  (length (active (run d (take k ss))) <= 1)%nat /\
  (forall h, phase (run d (take k ss)) = Swapping h ->
             active (step (run d (take k ss)) LoadSucceeded) = [h]).
Proof.
  intros Hd. split.
  - now apply run_at_most_one.
  - intros h Hph. unfold step. rewrite Hph. simpl.
    now rewrite unload_all_nil.
Qed.

(** A step that is not a successful load leaves the active model. *)
Lemma step_keeps_active (d : Device) (s : Signal) :
  s <> LoadSucceeded -> active (step d s) = active d.
Proof.
  intros Hs. unfold step.
  destruct (phase d), s; try reflexivity. contradiction.
Qed.

Lemma run_keeps_active (d : Device) (ss : list Signal) :
  Forall (fun s => s <> LoadSucceeded) ss -> active (run d ss) = active d.
Proof.
  unfold run. intros Hss. revert d.
  induction Hss as [|s ss Hs _ IH]; intros d; simpl; [reflexivity|].
  now rewrite IH, step_keeps_active.
Qed.

(** C4: an update attempt that fails leaves the listener in Idle with
    the model that was active before the attempt and one more event, the
    error for the package: this holds for an attempt whose download fails
    and for one whose download completes and whose load fails.  The
    active model is the one from before the attempt at every point on the
    way, since only a successful load changes it. *)
Theorem failure_keeps_active_model
  (d : Device) (target : ModelHandle) (ss : list Signal) (k : nat) :
  phase d = Idle ->
  run d [DeploymentMessage target; DownloadFailed]
  = mkDevice Idle (active d) (events d ++ [DownloadError target]) /\
  run d [DeploymentMessage target; DownloadComplete; LoadFailed]
  = mkDevice Idle (active d) (events d ++ [LoadError target]) /\
  (Forall (fun s => s <> LoadSucceeded) ss ->
   active (run d (take k ss)) = active d).
Proof.
  intros Hidle.
  assert (Hstart : step d (DeploymentMessage target)
                   = mkDevice (Downloading target) (active d) (events d)).
  { unfold step. now rewrite Hidle. }
  split; [unfold run; simpl; now rewrite Hstart|].
  split; [unfold run; simpl; now rewrite Hstart|].
  intros Hss. apply run_keeps_active. now apply Forall_take.
Qed.
End OTAFacts.

(** ** Examples on the small wind farm *)

Lemma ring_buffer_most_recent_witness :
  (RingBuffer.items (samples_buffer Demo.t3)
   = drop (3 - 2) (samples Demo.noise 3 Demo.t0) /\
   RingBuffer.size (samples_buffer Demo.t3) = 2%nat) /\
  (RingBuffer.items
     (RingBuffer.append (generate Demo.noise Demo.t3) (samples_buffer Demo.t3))
   = drop 1 (RingBuffer.items (samples_buffer Demo.t3)) ++ [generate Demo.noise Demo.t3] /\
   RingBuffer.size
     (RingBuffer.append (generate Demo.noise Demo.t3) (samples_buffer Demo.t3))
   = 2%nat) /\
  (RingBuffer.size
     (RingBuffer.feed (samples_buffer Demo.t0) (samples Demo.noise 3 Demo.t0)) <= 2)%nat.
Proof.
  pose proof (ring_buffer_most_recent Demo.noise Demo.t0 3 (samples_buffer Demo.t3)
                (generate Demo.noise Demo.t3) []) as (Hrecent & Hfull & _).
  pose proof (ring_buffer_most_recent Demo.noise Demo.t0 3 (samples_buffer Demo.t0)
                (generate Demo.noise Demo.t3) (samples Demo.noise 3 Demo.t0))
    as (_ & _ & Hbound).
  split; [|split].
  - apply Hrecent. simpl. lia.
  - apply Hfull; [reflexivity|simpl; lia].
  - apply Hbound. vm_compute. lia.
Defined.

Lemma inject_fault_frame_witness :
  exists t' s',
    inject_fault 0 Voltage Demo.farm !! 0%nat = Some t' /\
    samples Demo.noise 3 t' !! 1%nat = Some s' /\
    timestamp s' = 1%nat /\
    (forall c', c' <> Voltage ->
                readings s' c' = readings (generate Demo.noise (ticks Demo.noise 1 Demo.t0)) c') /\
    readings s' Voltage = (2 + 100)%Q.
Proof.
  destruct (inject_fault_frame Demo.noise Demo.farm 0 Voltage 0 Demo.t0 3 1
              (generate Demo.noise (ticks Demo.noise 1 Demo.t0)))
    as (t' & s' & Hfarm & Hs' & Hts & Hframe & Hfault); [reflexivity|reflexivity|].
  exists t', s'. repeat split; try assumption.
  - intros c' Hc'. apply Hframe. now right.
  - apply Hfault. reflexivity.
Defined.

Lemma anomaly_iff_exceeds_witness :
  ~ flagged Voltage
      (controller_tick Demo.predict_window Demo.reconstruction_error
                       Demo.thresholds 1 Demo.t3) /\
  flagged Voltage
      (controller_tick Demo.predict_window Demo.reconstruction_error
                       Demo.thresholds 1 Demo.t3_faulty).
Proof.
  split.
  - pose proof (anomaly_iff_exceeds Demo.predict_window Demo.reconstruction_error
                  Demo.thresholds 1 Demo.t3
                  (map Demo.nominal
                     (RingBuffer.latest_window 1 (samples_buffer Demo.t3)))
                  Voltage) as Hc.
    cbv zeta in Hc. destruct (Hc eq_refl) as [_ Hboundary].
    apply Hboundary. vm_compute. reflexivity.
  - pose proof (anomaly_iff_exceeds Demo.predict_window Demo.reconstruction_error
                  Demo.thresholds 1 Demo.t3_faulty
                  (map Demo.nominal
                     (RingBuffer.latest_window 1 (samples_buffer Demo.t3_faulty)))
                  Voltage) as Hc.
    cbv zeta in Hc. destruct (Hc eq_refl) as [Hiff _].
    apply Hiff. vm_compute. reflexivity.
Defined.

Lemma at_most_one_active_witness :
  (length (OTA.active
             (OTA.run Demo.device
                (take 2 [OTA.DeploymentMessage Demo.v2; OTA.DownloadComplete;
                         OTA.LoadSucceeded]))) <= 1)%nat /\
  OTA.active
    (OTA.step
       (OTA.run Demo.device
          (take 2 [OTA.DeploymentMessage Demo.v2; OTA.DownloadComplete;
                   OTA.LoadSucceeded]))
       OTA.LoadSucceeded)
  = [Demo.v2].
Proof.
  destruct (OTAFacts.at_most_one_active Demo.device
              [OTA.DeploymentMessage Demo.v2; OTA.DownloadComplete; OTA.LoadSucceeded]
              2) as [Hone Hswap]; [simpl; lia|].
  split; [exact Hone|apply Hswap; reflexivity].
Defined.

Lemma failure_keeps_active_model_witness :
  OTA.run Demo.device [OTA.DeploymentMessage Demo.v2; OTA.DownloadFailed]
  = OTA.mkDevice OTA.Idle [Demo.v1] [OTA.DownloadError Demo.v2] /\
  OTA.run Demo.device
    [OTA.DeploymentMessage Demo.v2; OTA.DownloadComplete; OTA.LoadFailed]
  = OTA.mkDevice OTA.Idle [Demo.v1] [OTA.LoadError Demo.v2] /\
  OTA.active
    (OTA.run Demo.device
       (take 2 [OTA.DeploymentMessage Demo.v2; OTA.DownloadComplete; OTA.LoadFailed]))
  = [Demo.v1].
Proof.
  destruct (OTAFacts.failure_keeps_active_model Demo.device Demo.v2
              [OTA.DeploymentMessage Demo.v2; OTA.DownloadComplete; OTA.LoadFailed] 2)
    as (Hdownload & Hload & Hway); [reflexivity|].
  split; [exact Hdownload|]. split; [exact Hload|].
  apply Hway. repeat constructor; discriminate.
Defined.

(** * Further properties of the notebook code *)

(** ** The dict of [list_models] *)

Lemma models_dict_snoc (ms : list Model) (m : Model) :
  models_dict (ms ++ [m]) = <[m_name m := model_io m]> (models_dict ms).
Proof. unfold models_dict. now rewrite foldl_snoc. Qed.

(** X1: an entry of the dict of [list_models] is the last model of that
    name in the agent's answer; a name has no entry exactly when no model
    of the answer carries it. *)
Theorem models_dict_last_wins (ms : list Model) (name : string) :
  models_dict ms !! name
  = model_io <$> last (filter (fun m => m_name m = name) ms) /\
  (models_dict ms !! name = None <-> forall m, In m ms -> m_name m <> name).
Proof.
  assert (Hlast : models_dict ms !! name
                  = model_io <$> last (filter (fun m => m_name m = name) ms)).
  { induction ms as [|m ms IH] using rev_ind; [reflexivity|].
    rewrite models_dict_snoc, filter_app.
    destruct (decide (m_name m = name)) as [Heq|Hne].
    - rewrite Heq, lookup_insert_eq.
      rewrite filter_cons_True by exact Heq.
      rewrite filter_nil, last_snoc. reflexivity.
    - rewrite lookup_insert_ne by exact Hne.
      rewrite filter_cons_False by exact Hne.
      rewrite filter_nil, app_nil_r. exact IH. }
  split; [exact Hlast|].
  rewrite Hlast, fmap_None, last_None. split.
  - intros Hnil m Hin Hname.
    assert (Hm : m ∈ filter (fun m => m_name m = name) ms).
    { apply list_elem_of_filter. split; [exact Hname|now apply list_elem_of_In]. }
    rewrite Hnil in Hm. inversion Hm.
  - intros Hall.
    destruct (filter (fun m => m_name m = name) ms) as [|m r] eqn:Hf; [reflexivity|].
    assert (Hm : m ∈ filter (fun m => m_name m = name) ms) by (rewrite Hf; left).
    apply list_elem_of_filter in Hm as [Hname Hin].
    apply list_elem_of_In in Hin. now destruct (Hall m Hin).
Qed.

(** ** Decoding a tensor *)

Lemma nonneg_no_unknown (l : list Z) :
  Forall (fun d => 0 <= d) l -> List.filter (fun d => d <? 0) l = [].
Proof.
  induction 1 as [|d l Hd _ IH]; simpl; [reflexivity|].
  destruct (Z.ltb_spec d 0); [lia|exact IH].
Qed.

Lemma nonneg_all_known (l : list Z) :
  Forall (fun d => 0 <= d) l -> List.filter (fun d => 0 <=? d) l = l.
Proof.
  induction 1 as [|d l Hd _ IH]; simpl; [reflexivity|].
  destruct (Z.leb_spec 0 d); [|lia]. now rewrite IH.
Qed.

(** Bytes of the right length decode to the array of the given shape. *)
Lemma decode_float32_ok (b : list byte) (shp : list Z) :
  Forall (fun d => 0 <= d) shp ->
  Z.of_nat (length b) = itemsize_float32 * prodZ shp ->
  decode_float32 b shp = Ret (mkNDArray np_float32 shp b).
Proof.
  intros Hpos Hlen. unfold decode_float32, np_frombuffer_float32.
  rewrite Hlen. unfold itemsize_float32.
  rewrite Z.mul_comm, Z_mod_mult. simpl.
  unfold np_reshape. simpl.
  rewrite nonneg_no_unknown, nonneg_all_known by exact Hpos.
  simpl. rewrite Hlen. unfold itemsize_float32.
  rewrite (Z.mul_comm 4), Z_div_mult by lia.
  now rewrite Z.eqb_refl.
Qed.

(** X2: decoding the tensor that [create_tensor] builds from a float32
    array whose dimensions fit the int32 shape field gives the array
    back. *)
Theorem create_tensor_decode (x : NDArray) (tensor_name : string) :
  is_float32_array x ->
  forallb int32_ok (shape x) = true ->
  exists t,
    create_tensor x tensor_name = Ret t /\
    decode_float32 (byte_data t) (tm_shape (tensor_metadata t)) = Ret x.
Proof.
  intros (Hdt & Hpos & Hlen) Hdims. unfold create_tensor.
  destruct (decide (dtype x <> np_float32)) as [Hne|_]; [contradiction|].
  rewrite append_int32_ok by exact Hdims.
  eexists. split; [reflexivity|]. simpl. unfold tobytes.
  rewrite decode_float32_ok by assumption.
  destruct x as [dt shp buf]. simpl in Hdt. now subst dt.
Qed.

Lemma create_tensor_decode_witness :
  exists t,
    create_tensor EchoAgent.x12 "input" = Ret t /\
    decode_float32 (byte_data t) (tm_shape (tensor_metadata t)) = Ret EchoAgent.x12.
Proof.
  apply (create_tensor_decode EchoAgent.x12 "input"); [|reflexivity].
  split; [reflexivity|]. split; [|reflexivity].
  repeat constructor; lia.
Defined.

(** ** More on [predict] and [capture_data] *)

Section ClientMore.
Context {St : Type} `{!AgentStub St}.
Variable cast_float32 : DType -> list byte -> list byte.
Variable uuid_of : nat -> string.

(** [predict], case by case on what the agent answers. *)
Lemma predict_body_cases (name : string) (x : PredictInput) (shm : bool) (w : World St) :
  predict_body cast_float32 name x shm w =
  match ListModels (agent_state w) with
  | (Raise e, s1) => (Raise e, after_call CallListModels s1 w)
  | (Ret resp, s1) =>
      let w1 := after_call CallListModels s1 w in
      match models_dict (lm_models resp) !! name with
      | None => (Raise (Exception ("Model " ++ name ++ " not loaded")%string), w1)
      | Some io =>
          match index0 (io_in io) with
          | Raise e => (Raise e, w1)
          | Ret meta =>
              match request_data cast_float32 x shm with
              | Raise e => (Raise e, w1)
              | Ret data =>
                  let req := mkPredictRequest name
                               [mkTensor (request_metadata meta) data] in
                  match Predict req s1 with
                  | (Raise e, s2) => (Raise e, after_call (CallPredict req) s2 w1)
                  | (Ret presp, s2) =>
                      let w2 := after_call (CallPredict req) s2 w1 in
                      match index0 (io_out io) with
                      | Raise e => (Raise e, w2)
                      | Ret _ =>
                          match index0 (response_tensors presp) with
                          | Raise e => (Raise e, w2)
                          | Ret t =>
                              (decode_float32 (byte_data t)
                                 (tm_shape (tensor_metadata t)), w2)
                          end
                      end
                  end
              end
          end
      end
  end.
Proof.
  unfold predict_body, bind. rewrite list_models_eq.
  destruct (ListModels (agent_state w)) as [[resp|e] s1]; simpl; [|reflexivity].
  destruct (models_dict (lm_models resp) !! name) as [io|]; [|reflexivity].
  unfold lift.
  destruct (index0 (io_in io)) as [meta|e]; [|reflexivity].
  destruct (request_data cast_float32 x shm) as [data|e]; [|reflexivity].
  rewrite rpc_eq. cbn [agent_state after_call].
  destruct (Predict _ s1) as [[presp|e] s2]; simpl; [|reflexivity].
  destruct (index0 (io_out io)) as [mo|e]; [|reflexivity].
  destruct (index0 (response_tensors presp)) as [t|e]; [|reflexivity].
  unfold decode_float32.
  destruct (np_frombuffer_float32 (byte_data t)) as [d|e]; [|reflexivity].
  destruct (np_reshape d (tm_shape (tensor_metadata t))); reflexivity.
Qed.
Ltac predict_cases w name x shm :=
  rewrite (predict_body_cases name x shm w);
  let resp := fresh "resp" in
  let s1 := fresh "s1" in
  let s2 := fresh "s2" in
  let io := fresh "io" in
  let meta := fresh "meta" in
  let data := fresh "data" in
  let presp := fresh "presp" in
  let e := fresh "e" in
  destruct (ListModels (agent_state w)) as [[resp|e] s1] eqn:Hlist;
  [ cbv zeta;
    destruct (models_dict (lm_models resp) !! name) as [io|] eqn:Hio;
    [ destruct (index0 (io_in io)) as [meta|e] eqn:Hin;
      [ destruct (request_data cast_float32 x shm) as [data|e] eqn:Hdata;
        [ destruct (Predict (mkPredictRequest name [mkTensor (request_metadata meta) data]) s1)
            as [[presp|e] s2] eqn:Hpredict;
          [ destruct (index0 (io_out io)) as [?|e] eqn:Hout;
            [ destruct (index0 (response_tensors presp)) as [?|e] eqn:Htensor | ]
          | ]
        | ]
      | ]
    | ]
  | ].

Lemma request_metadata_id (meta : TensorMetadata) : request_metadata meta = meta.
Proof. destruct meta. unfold request_metadata. simpl. now rewrite append_all_nil. Qed.

(** [predict] touches the console and the log only through its body. *)
Lemma predict_log (name : string) (x : PredictInput) (shm : bool) (w : World St) :
  rpc_log (snd (predict cast_float32 name x shm w))
  = rpc_log (snd (predict_body cast_float32 name x shm w)) /\
  agent_state (snd (predict cast_float32 name x shm w))
  = agent_state (snd (predict_body cast_float32 name x shm w)) /\
  uuid_seed (snd (predict cast_float32 name x shm w))
  = uuid_seed (snd (predict_body cast_float32 name x shm w)).
Proof.
  rewrite predict_eq.
  destruct (predict_body cast_float32 name x shm w) as [[y|e] w']; repeat split.
Qed.


(** X4: a model listed without any output description makes [predict]
    return [None] with an [IndexError] printed, although the [Predict]
    call has been made and answered. *)
Theorem predict_without_output_metadata
  (name : string) (x : PredictInput) (shm : bool) (w : World St)
  (resp : ListModelsResponse) (s1 s2 : St) (io : ModelIO)
  (meta : TensorMetadata) (data : TensorData) (presp : PredictResponse) :
  ListModels (agent_state w) = (Ret resp, s1) ->
  models_dict (lm_models resp) !! name = Some io ->
  index0 (io_in io) = Ret meta ->
  io_out io = [] ->
  request_data cast_float32 x shm = Ret data ->
  Predict (mkPredictRequest name [mkTensor meta data]) s1 = (Ret presp, s2) ->
  predict cast_float32 name x shm w
  = (Ret None,
     mkWorld s2
       (rpc_log w ++ [CallListModels;
                      CallPredict (mkPredictRequest name [mkTensor meta data])])
       (stdout w ++ [IndexError]) (uuid_seed w)).
Proof.
  intros Hl Hd Hi Ho Hr Hp.
  rewrite predict_eq, predict_body_cases, Hl. cbv zeta.
  rewrite Hd, Hi, Hr, request_metadata_id, Hp, Ho. simpl.
  unfold log_exn, after_call. simpl. now rewrite <- app_assoc.
Qed.

(** X5: a model listed without any input description makes [predict]
    return [None] with an [IndexError] printed before any [Predict]
    request is sent. *)
Theorem predict_without_input_metadata
  (name : string) (x : PredictInput) (shm : bool) (w : World St)
  (resp : ListModelsResponse) (s1 : St) (io : ModelIO) :
  ListModels (agent_state w) = (Ret resp, s1) ->
  models_dict (lm_models resp) !! name = Some io ->
  io_in io = [] ->
  predict cast_float32 name x shm w
  = (Ret None,
     mkWorld s1 (rpc_log w ++ [CallListModels]) (stdout w ++ [IndexError])
             (uuid_seed w)).
Proof.
  intros Hl Hd Hi.
  rewrite predict_eq, predict_body_cases, Hl. cbv zeta.
  rewrite Hd, Hi. reflexivity.
Qed.

Lemma segment_handle_ret (v : Z) (data : TensorData) :
  segment_handle v = Ret data ->
  0 <= v < 18446744073709551616 /\ data = ShmData (mkSharedMemoryHandle v 0).
Proof.
  unfold segment_handle, uint64_ok.
  destruct (Z.leb_spec 0 v), (Z.ltb_spec v 18446744073709551616); simpl;
    intros [= <-] || discriminate 1.
  split; [lia|reflexivity].
Qed.

(** The payloads [request_data] builds. *)
Lemma request_data_ret (x : PredictInput) (shm : bool) (data : TensorData) :
  request_data cast_float32 x shm = Ret data ->
  (shm = false /\ exists a, x = InArray a /\
     data = ByteData (tobytes (astype_float32 cast_float32 a))) \/
  (shm = true /\ exists id,
     (x = InSegment id \/ exists a, x = InArray a /\ array_index a = Some id) /\
     0 <= id < 18446744073709551616 /\
     data = ShmData (mkSharedMemoryHandle id 0)).
Proof.
  unfold request_data. destruct shm, x as [a|id]; intros Hdata.
  - destruct (array_index a) as [id|] eqn:Hidx; [|discriminate Hdata].
    apply segment_handle_ret in Hdata as [Hrange ->].
    right. split; [reflexivity|]. exists id. split; [right; eauto|]. now split.
  - apply segment_handle_ret in Hdata as [Hrange ->].
    right. split; [reflexivity|]. exists id. split; [now left|]. now split.
  - injection Hdata as <-. left. split; [reflexivity|]. eauto.
  - discriminate Hdata.
Qed.

(** X6: a [Predict] request that [predict] sends names the model and
    carries one tensor: its description is the first input description
    the agent listed for the model, whatever the shape of the argument.
    Its payload is the float32 bytes of the array when [shm] is off; when
    [shm] is set it is the handle at offset 0 of the segment whose id the
    argument is (an integer, or an integer array without dimensions), and
    that id is within the uint64 range of the field. *)
Theorem predict_request_content
  (name : string) (x : PredictInput) (shm : bool) (w : World St)
  (req : PredictRequest) :
  In (CallPredict req)
     (drop (length (rpc_log w)) (rpc_log (snd (predict cast_float32 name x shm w)))) ->
  exists resp s1 io meta rest data,
    ListModels (agent_state w) = (Ret resp, s1) /\
    models_dict (lm_models resp) !! name = Some io /\
    io_in io = meta :: rest /\
    req = mkPredictRequest name [mkTensor meta data] /\
    ((shm = false /\ exists a, x = InArray a /\
        data = ByteData (tobytes (astype_float32 cast_float32 a))) \/
     (shm = true /\ exists id,
        (x = InSegment id \/ exists a, x = InArray a /\ array_index a = Some id) /\
        0 <= id < 18446744073709551616 /\
        data = ShmData (mkSharedMemoryHandle id 0))).
Proof.
  destruct (predict_log name x shm w) as (-> & _ & _).
  predict_cases w name x shm; simpl;
    rewrite <- ?app_assoc, drop_app_length; simpl; intros Hin';
    repeat match goal with
           | H : _ \/ _ |- _ => destruct H
           | H : False |- _ => destruct H
           | H : CallListModels = CallPredict _ |- _ => discriminate H
           | H : CallPredict _ = CallPredict _ |- _ => injection H as <-
           end.
  all: destruct (io_in io) as [|m rest] eqn:Hio_in; simpl in Hin; try discriminate Hin.
  all: injection Hin as ->.
  all: exists resp, s1, io, meta, rest, data.
  all: rewrite request_metadata_id.
  all: repeat split; try reflexivity; try assumption.
  all: now apply request_data_ret.
Qed.

(** X7: [predict] returns [None] only together with one printed
    exception, and a successful [predict] prints nothing; it never
    raises. *)
Theorem predict_prints_on_failure
  (name : string) (x : PredictInput) (shm : bool) (w : World St) :
  match fst (predict cast_float32 name x shm w) with
  | Ret (Some _) => stdout (snd (predict cast_float32 name x shm w)) = stdout w
  | Ret None =>
      exists e, stdout (snd (predict cast_float32 name x shm w)) = stdout w ++ [e]
  | Raise _ => False
  end.
Proof.
  assert (Hbody : stdout (snd (predict_body cast_float32 name x shm w)) = stdout w).
  { predict_cases w name x shm; reflexivity. }
  rewrite predict_eq.
  destruct (predict_body cast_float32 name x shm w) as [[y|e] w']; simpl in *.
  - exact Hbody.
  - exists e. now rewrite Hbody.
Qed.
(** C7 (amended): what each operation does with the agent.
    [list_models], [load_model] and [unload_model] build their request
    from their arguments, make exactly one call and hand back the answer
    ([load_model] and [unload_model] print a failure and return [None]).
    [predict] makes one [ListModels] call followed by at most one
    [Predict] call, never raises, and returns [None] or the first tensor
    of the agent's answer to that [Predict] call, read as float32 and
    reshaped to the tensor's shape; [capture_data] makes at most one
    [CaptureData] call and returns nothing.  No result is computed by the
    client itself. *)
Theorem client_remote_calls
  (name path : string) (x : PredictInput) (shm : bool)
  (tin tout : option NDArray) (w : World St) :
  list_models w =
    (match fst (ListModels (agent_state w)) with
     | Ret resp => Ret (models_dict (lm_models resp))
     | Raise e => Raise e
     end,
     after_call CallListModels (snd (ListModels (agent_state w))) w) /\
  load_model name path w =
    (let req := mkLoadModelRequest path name in
     match LoadModel req (agent_state w) with
     | (Ret resp, s) => (Ret (Some resp), after_call (CallLoadModel req) s w)
     | (Raise e, s) => (Ret None, log_exn e (after_call (CallLoadModel req) s w))
     end) /\
  unload_model name w =
    (let req := mkUnLoadModelRequest name in
     match UnLoadModel req (agent_state w) with
     | (Ret resp, s) => (Ret (Some resp), after_call (CallUnLoadModel req) s w)
     | (Raise e, s) => (Ret None, log_exn e (after_call (CallUnLoadModel req) s w))
     end) /\
  (rpc_log (snd (predict cast_float32 name x shm w)) = rpc_log w ++ [CallListModels]
   \/ exists t,
       rpc_log (snd (predict cast_float32 name x shm w)) =
       rpc_log w ++ [CallListModels; CallPredict (mkPredictRequest name [t])]) /\
  match fst (predict cast_float32 name x shm w) with
  | Ret None => True
  | Ret (Some y) =>
      exists req presp s2 t rest,
        rpc_log (snd (predict cast_float32 name x shm w))
        = rpc_log w ++ [CallListModels; CallPredict req] /\
        Predict req (snd (ListModels (agent_state w))) = (Ret presp, s2) /\
        response_tensors presp = t :: rest /\
        decode_float32 (byte_data t) (tm_shape (tensor_metadata t)) = Ret y
  | Raise _ => False
  end /\
  fst (capture_data uuid_of name tin tout w) = Ret tt /\
  (rpc_log (snd (capture_data uuid_of name tin tout w)) = rpc_log w
   \/ exists cid a b,
       rpc_log (snd (capture_data uuid_of name tin tout w)) =
       rpc_log w ++ [CallCaptureData (mkCaptureDataRequest name cid [a] [b])]).
Proof.
  split; [apply list_models_eq|].
  split.
  { unfold load_model. rewrite try_print_None. unfold bind. rewrite rpc_eq. simpl.
    destruct (LoadModel _ (agent_state w)) as [[resp|e] s]; reflexivity. }
  split.
  { unfold unload_model. rewrite try_print_None. unfold bind. rewrite rpc_eq. simpl.
    destruct (UnLoadModel _ (agent_state w)) as [[resp|e] s]; reflexivity. }
  split; [apply predict_calls|].
  split.
  { rewrite predict_eq. predict_cases w name x shm; simpl; try exact I.
    match goal with
    | Ht : index0 (response_tensors presp) = Ret ?t |- _ =>
        destruct (decode_float32 (byte_data t) (tm_shape (tensor_metadata t)))
          as [y|e'] eqn:Hdec; simpl; [|exact I];
        destruct (response_tensors presp) as [|t' rest] eqn:Hts; [discriminate Ht|];
        injection Ht as ->;
        eexists; exists presp, s2, t, rest
    end.
    split; [now rewrite <- app_assoc|].
    split; [exact Hpredict|]. split; [exact Hts|exact Hdec]. }
  unfold capture_data, try_except, bind, uuid4, lift, print, ret.
  destruct (create_tensor_arg tin "input") as [a|e]; simpl; [|split; [reflexivity|now left]].
  destruct (create_tensor_arg tout "output") as [b|e]; simpl; [|split; [reflexivity|now left]].
  rewrite rpc_eq. cbn [agent_state].
  match goal with
  | |- context [CaptureData ?r (agent_state w)] =>
      destruct (CaptureData r (agent_state w)) as [[resp|e] s]
  end; simpl; (split; [reflexivity|right; eauto]).
Qed.
End ClientMore.

Section CellFacts.
Context {St : Type} `{!AgentStub St}.
Variable cast_float32 : DType -> list byte -> list byte.
Variable uuid_of : nat -> string.

(** The tensor [create_tensor] builds from a float32 array whose
    dimensions fit the shape field. *)
Lemma create_tensor_float32 (a : NDArray) (tensor_name : string) :
  dtype a = np_float32 ->
  forallb int32_ok (shape a) = true ->
  create_tensor a tensor_name
  = Ret (mkTensor (mkTensorMetadata (encode_utf8 tensor_name) FLOAT32 (shape a))
                  (ByteData (buffer a))).
Proof.
  intros Hdt Hdims. unfold create_tensor.
  destruct (decide (dtype a <> np_float32)) as [Hne|_]; [contradiction|].
  now rewrite append_int32_ok by exact Hdims.
Qed.

Lemma capturable_or_not (t : option NDArray) : capturable t \/ ~ capturable t.
Proof.
  destruct t as [a|].
  - destruct (decide (dtype a = np_float32)) as [Heq|Hne].
    + destruct (forallb int32_ok (shape a)) eqn:Hdims.
      * left. now exists a.
      * right. intros (a' & [= <-] & _ & Hok). congruence.
    + right. intros (a' & [= <-] & Hdt & _). contradiction.
  - right. intros (a & Hnone & _). discriminate Hnone.
Qed.

Lemma create_tensor_arg_raises (t : option NDArray) (tensor_name : string) :
  ~ capturable t ->
  exists e, create_tensor_arg t tensor_name = Raise e /\ refusal e.
Proof.
  intros Hno. unfold refusal. destruct t as [a|]; simpl; [|eauto].
  unfold create_tensor.
  destruct (decide (dtype a <> np_float32)) as [_|Heq]; [eauto|].
  destruct (forallb int32_ok (shape a)) eqn:Hdims.
  - destruct Hno. exists a. split; [reflexivity|]. split; [|exact Hdims].
    destruct (decide (dtype a = np_float32)); [assumption|contradiction].
  - rewrite append_int32_bad by exact Hdims. eauto.
Qed.

Lemma create_tensor_arg_returns (t : option NDArray) (tensor_name : string) :
  capturable t -> exists r, create_tensor_arg t tensor_name = Ret r.
Proof.
  intros (a & -> & Hdt & Hdims). simpl.
  rewrite create_tensor_float32 by assumption. eauto.
Qed.

(** X8: given two float32 arrays whose dimensions fit the int32 shape
    field, [capture_data] makes exactly one [CaptureData] call; the
    request names the model, carries a fresh capture id and the two
    arrays as tensors called input and output, with their shapes and raw
    bytes.  A failing call is printed, not raised. *)
Theorem capture_data_request
  (name : string) (a b : NDArray) (w : World St) :
  dtype a = np_float32 ->
  dtype b = np_float32 ->
  forallb int32_ok (shape a) = true ->
  forallb int32_ok (shape b) = true ->
  let req :=
    mkCaptureDataRequest name (uuid_of (uuid_seed w))
      [mkTensor (mkTensorMetadata (encode_utf8 "input") FLOAT32 (shape a))
                (ByteData (buffer a))]
      [mkTensor (mkTensorMetadata (encode_utf8 "output") FLOAT32 (shape b))
                (ByteData (buffer b))] in
  capture_data uuid_of name (Some a) (Some b) w
  = match CaptureData req (agent_state w) with
    | (Ret _, s) =>
        (Ret tt, mkWorld s (rpc_log w ++ [CallCaptureData req]) (stdout w)
                         (Datatypes.S (uuid_seed w)))
    | (Raise e, s) =>
        (Ret tt, mkWorld s (rpc_log w ++ [CallCaptureData req]) (stdout w ++ [e])
                         (Datatypes.S (uuid_seed w)))
    end.
Proof.
  intros Ha Hb Hda Hdb req.
  unfold capture_data, try_except, bind, uuid4, lift, print, ret. simpl.
  rewrite (create_tensor_float32 a "input" Ha Hda),
          (create_tensor_float32 b "output" Hb Hdb).
  rewrite rpc_eq. cbn [agent_state]. fold req.
  destruct (CaptureData req (agent_state w)) as [[r|e] s]; reflexivity.
Qed.

(** X9: [capture_data] reaches the agent exactly when both arguments are
    float32 arrays whose dimensions fit the int32 shape field.  Otherwise
    (an argument is [None], as [predict] returns on failure, has another
    element type, or has a dimension out of that range) it prints the
    exception of [create_tensor], makes no remote call and leaves the
    agent alone; it never raises. *)
Theorem capture_data_only_float32
  (name : string) (tin tout : option NDArray) (w : World St) :
  fst (capture_data uuid_of name tin tout w) = Ret tt /\
  (existsb is_capture_call
     (drop (length (rpc_log w)) (rpc_log (snd (capture_data uuid_of name tin tout w))))
   = true <-> capturable tin /\ capturable tout) /\
  (~ (capturable tin /\ capturable tout) ->
   rpc_log (snd (capture_data uuid_of name tin tout w)) = rpc_log w /\
   agent_state (snd (capture_data uuid_of name tin tout w)) = agent_state w /\
   exists e,
     stdout (snd (capture_data uuid_of name tin tout w)) = stdout w ++ [e] /\
     refusal e).
Proof.
  unfold capture_data, try_except, bind, uuid4, lift, print, ret. simpl.
  destruct (capturable_or_not tin) as [Hin|Hin].
  2:{ destruct (create_tensor_arg_raises tin "input" Hin) as (e & -> & He); simpl.
      rewrite drop_all. simpl.
      split; [reflexivity|]. split; [split; [discriminate|tauto]|].
      intros _. repeat split. eauto. }
  destruct (create_tensor_arg_returns tin "input" Hin) as [ti ->]. simpl.
  destruct (capturable_or_not tout) as [Hout|Hout].
  2:{ destruct (create_tensor_arg_raises tout "output" Hout) as (e & -> & He); simpl.
      rewrite drop_all. simpl.
      split; [reflexivity|]. split; [split; [discriminate|tauto]|].
      intros _. repeat split. eauto. }
  destruct (create_tensor_arg_returns tout "output" Hout) as [to ->]. simpl.
  rewrite rpc_eq. cbn [agent_state].
  match goal with
  | |- context [CaptureData ?r (agent_state w)] =>
      destruct (CaptureData r (agent_state w)) as [[r'|e] s]
  end; simpl; rewrite drop_app_length; simpl;
    (split; [reflexivity|]); (split; [tauto|tauto]).
Qed.
End CellFacts.

Section LoopFacts.
Context {St : Type} `{!AgentStub St}.
Variable cast_float32 : DType -> list byte -> list byte.
Variable uuid_of : nat -> string.

Lemma predict_returns (name : string) (x : PredictInput) (shm : bool) (w : World St) :
  exists y w', predict cast_float32 name x shm w = (Ret y, w').
Proof.
  rewrite predict_eq.
  destruct (predict_body cast_float32 name x shm w) as [[y|e] w']; eauto.
Qed.

(** X10: a loop of [n] predictions never raises and makes exactly [n]
    [ListModels] calls, at most [n] [Predict] calls and no other call:
    every prediction pays for a listing of the models. *)
Theorem predict_loop_calls
  (n : nat) (name : string) (x : PredictInput) (shm : bool)
  (y : option NDArray) (w : World St) :
  exists y' w' calls,
    predict_loop cast_float32 n name x shm y w = (Ret y', w') /\
    rpc_log w' = rpc_log w ++ calls /\
    length (List.filter is_list_models_call calls) = n /\
    (length (List.filter is_predict_call calls) <= n)%nat /\
    forallb (fun c => is_list_models_call c || is_predict_call c) calls = true.
Proof.
  revert y w. induction n as [|n IH]; intros y w; simpl.
  - exists y, w, []. rewrite app_nil_r. repeat split. simpl. lia.
  - unfold bind.
    destruct (predict_returns name x shm w) as (y1 & w1 & Hp).
    pose proof (predict_calls cast_float32 name x shm w) as Hcalls.
    rewrite Hp in *. simpl in Hcalls.
    destruct (IH y1 w1) as (y' & w' & calls & Hloop & Hlog & Hlm & Hpr & Hall).
    destruct Hcalls as [Hc|[t Hc]]; rewrite Hc in Hlog.
    + exists y', w', (CallListModels :: calls).
      rewrite Hloop, Hlog, <- app_assoc. simpl. rewrite Hlm, Hall.
      repeat split. lia.
    + exists y', w', (CallListModels :: CallPredict (mkPredictRequest name [t]) :: calls).
      rewrite Hloop, Hlog, <- app_assoc. simpl. rewrite Hlm, Hall.
      repeat split. lia.
Qed.

Lemma capture_data_returns (name : string) (tin tout : option NDArray) (w : World St) :
  exists w', capture_data uuid_of name tin tout w = (Ret tt, w').
Proof.
  unfold capture_data, try_except, bind, uuid4, lift, print, ret. simpl.
  destruct (create_tensor_arg tin "input"); simpl; [|eauto].
  destruct (create_tensor_arg tout "output"); simpl; [|eauto].
  rewrite rpc_eq.
  match goal with
  | |- context [match fst ?p with _ => _ end] => destruct p as [[r|e] s]
  end; simpl; eauto.
Qed.

Lemma capture_data_of_None_log (name : string) (tin : option NDArray) (w : World St) :
  rpc_log (snd (capture_data uuid_of name tin None w)) = rpc_log w.
Proof.
  unfold capture_data, try_except, bind, uuid4, lift, print, ret. simpl.
  destruct (create_tensor_arg tin "input"); reflexivity.
Qed.

(** X11: the prediction cell ([predict], [capture_data], [print(y.shape)])
    fails with an [AttributeError] exactly when [predict] has returned
    [None], and then no data has been captured; otherwise it yields the
    shape of the prediction. *)
Theorem predict_cell_outcome (name : string) (x : NDArray) (w : World St) :
  match fst (predict cast_float32 name (InArray x) false w) with
  | Ret (Some y) =>
      fst (predict_cell cast_float32 uuid_of name x w) = Ret (shape y)
  | _ =>
      fst (predict_cell cast_float32 uuid_of name x w) = Raise AttributeError /\
      existsb is_capture_call
        (drop (length (rpc_log w))
              (rpc_log (snd (predict_cell cast_float32 uuid_of name x w))))
      = false
  end.
Proof.
  unfold predict_cell, bind.
  destruct (predict_returns name (InArray x) false w) as (y & w1 & Hp).
  pose proof (predict_calls cast_float32 name (InArray x) false w) as Hcalls.
  rewrite Hp in *. simpl in Hcalls. simpl.
  destruct y as [y|].
  - destruct (capture_data_returns name (Some x) (Some y) w1) as (w2 & ->).
    reflexivity.
  - pose proof (capture_data_of_None_log name (Some x) w1) as Hlog.
    destruct (capture_data_returns name (Some x) None w1) as (w2 & Hc).
    rewrite Hc in *. simpl in *. split; [reflexivity|].
    rewrite Hlog.
    destruct Hcalls as [->|[t ->]]; rewrite drop_app_length; reflexivity.
Qed.
End LoopFacts.

(** ** More on shared memory *)

Section SharedMemoryFacts.
Variable cast_float32 : DType -> list byte -> list byte.

(** [write_to_shm] in one step: the events up to the attach always
    happen; the write decides the rest. *)
Lemma write_to_shm_cases (payload : NDArray) (sm : SharedMemory) :
  write_to_shm cast_float32 payload sm =
  let b := tobytes (astype_float32 cast_float32 payload) in
  let evs := sm_events sm ++ (if sm_attached sm then [EvDetach] else []) ++
             [EvSetMode mode_rw; EvAttach] in
  if (sm_size sm <? length b)%nat
  then (Raise (ValueError "attempt to write past the end of the segment"),
        mkSharedMemory (sm_id sm) (sm_size sm) mode_rw true (sm_bytes sm) evs)
  else (Ret tt,
        mkSharedMemory (sm_id sm) (sm_size sm) mode_ro true
          (b ++ drop (length b) (sm_bytes sm))
          (evs ++ [EvWrite mode_rw b; EvSetMode mode_ro])).
Proof.
  unfold write_to_shm, bind, ret, sm_detach, sm_set_mode, sm_attach, sm_write, sm_record.
  destruct (sm_attached sm); simpl;
    destruct (sm_size sm <? length (tobytes (astype_float32 cast_float32 payload)))%nat;
    simpl; repeat rewrite <- app_assoc; reflexivity.
Qed.

(** X12: [write_to_shm] fails exactly when the float32 bytes of the
    payload are longer than the segment; neither the mode the segment had
    nor its being attached or detached makes it fail. *)
Theorem write_to_shm_raises_iff (payload : NDArray) (sm : SharedMemory) :
  is_raise (fst (write_to_shm cast_float32 payload sm)) = true
  <-> (sm_size sm < length (tobytes (astype_float32 cast_float32 payload)))%nat.
Proof.
  rewrite write_to_shm_cases. cbv zeta.
  destruct (Nat.ltb_spec (sm_size sm)
              (length (tobytes (astype_float32 cast_float32 payload)))); simpl.
  - tauto.
  - split; [discriminate|lia].
Qed.

(** X13: when the payload does not fit, [write_to_shm] raises the
    [ValueError] of the write and leaves the segment with its old bytes,
    but attached and with mode 0o600: the mode is not set back. *)
Theorem write_to_shm_failure (payload : NDArray) (sm : SharedMemory) :
  (sm_size sm < length (tobytes (astype_float32 cast_float32 payload)))%nat ->
  exists sm',
    write_to_shm cast_float32 payload sm
    = (Raise (ValueError "attempt to write past the end of the segment"), sm') /\
    sm_bytes sm' = sm_bytes sm /\
    sm_mode sm' = mode_rw /\
    sm_attached sm' = true.
Proof.
  intros Hlong. rewrite write_to_shm_cases. cbv zeta.
  destruct (Nat.ltb_spec (sm_size sm)
              (length (tobytes (astype_float32 cast_float32 payload)))); [|lia].
  eexists. repeat split.
Qed.

(** X14: a write that returns keeps the segment's id and size, never
    changes the number of bytes a segment of that size holds, and leaves
    the segment attached, so that a later [sm.detach()] succeeds. *)
Theorem write_to_shm_keeps_segment (payload : NDArray) (sm sm' : SharedMemory) :
  length (sm_bytes sm) = sm_size sm ->
  write_to_shm cast_float32 payload sm = (Ret tt, sm') ->
  sm_id sm' = sm_id sm /\
  sm_size sm' = sm_size sm /\
  length (sm_bytes sm') = sm_size sm' /\
  sm_attached sm' = true /\
  is_raise (fst (sm_detach sm')) = false.
Proof.
  intros Hwf. rewrite write_to_shm_cases. cbv zeta.
  destruct (Nat.ltb_spec (sm_size sm)
              (length (tobytes (astype_float32 cast_float32 payload))));
    [discriminate|].
  intros [= <-]. unfold sm_detach. simpl.
  repeat split. rewrite length_app, length_drop. lia.
Qed.

(** X15: writing the same payload a second time returns as well, takes
    the detach branch, and leaves the bytes and the mode of the segment as
    the first write left them. *)
Theorem write_to_shm_twice (payload : NDArray) (sm sm1 : SharedMemory) :
  write_to_shm cast_float32 payload sm = (Ret tt, sm1) ->
  exists sm2,
    write_to_shm cast_float32 payload sm1 = (Ret tt, sm2) /\
    sm_bytes sm2 = sm_bytes sm1 /\
    sm_mode sm2 = sm_mode sm1 /\
    sm_events sm2
    = sm_events sm1 ++
      [EvDetach; EvSetMode mode_rw; EvAttach;
       EvWrite mode_rw (tobytes (astype_float32 cast_float32 payload));
       EvSetMode mode_ro].
Proof.
  rewrite !write_to_shm_cases. cbv zeta.
  destruct (Nat.ltb_spec (sm_size sm)
              (length (tobytes (astype_float32 cast_float32 payload))))
    as [|Hfit]; [discriminate|].
  intros [= <-]. simpl.
  destruct (Nat.ltb_spec (sm_size sm)
              (length (tobytes (astype_float32 cast_float32 payload)))); [lia|].
  eexists. split; [reflexivity|]. simpl.
  rewrite drop_app_length. repeat split.
  now rewrite <- !app_assoc.
Qed.

Lemma payload_size_prod (shp : list Z) : payload_size shp = 4 * prodZ shp.
Proof.
  unfold payload_size.
  assert (H : forall acc, foldl (fun a i => a * i) acc shp = acc * prodZ shp).
  { induction shp as [|d shp IH]; intros acc; simpl; [lia|].
    rewrite IH. lia. }
  apply H.
Qed.

(** X16: a segment created with [payload_size] bytes for the shape of a
    float32 array is filled exactly by [write_to_shm]: the write returns
    and the segment holds the array's bytes and nothing else. *)
Theorem write_to_shm_fills_segment (x : NDArray) (sm : SharedMemory) :
  is_float32_array x ->
  Z.of_nat (sm_size sm) = payload_size (shape x) ->
  length (sm_bytes sm) = sm_size sm ->
  exists sm',
    write_to_shm cast_float32 x sm = (Ret tt, sm') /\
    sm_bytes sm' = tobytes x /\
    sm_mode sm' = mode_ro.
Proof.
  intros (Hdt & _ & Hlen) Hsize Hwf.
  rewrite payload_size_prod in Hsize.
  rewrite write_to_shm_cases. cbv zeta.
  unfold astype_float32.
  destruct (decide (dtype x = np_float32)) as [_|Hne]; [|contradiction].
  unfold tobytes, itemsize_float32 in *.
  destruct (Nat.ltb_spec (sm_size sm) (length (buffer x))); [lia|].
  eexists. split; [reflexivity|]. simpl. split; [|reflexivity].
  rewrite drop_ge by lia. apply app_nil_r.
Qed.

End SharedMemoryFacts.

Section ShmLoopFacts.
Context {St : Type} `{!AgentStub St}.
Variable cast_float32 : DType -> list byte -> list byte.

(** X17: when the float32 bytes of the payload fit the segment, the
    shared-memory loop of the stress test runs all its [n] rounds without
    raising, whatever the agent answers; it makes [n] [ListModels] calls,
    and after a first round the segment starts with the payload and is
    read-only. *)
Theorem shm_predict_loop_runs
  (n : nat) (name : string) (x : NDArray) (y : option NDArray)
  (sm : SharedMemory) (w : World St) :
  (length (tobytes (astype_float32 cast_float32 x)) <= sm_size sm)%nat ->
  exists y' sm' w' calls,
    shm_predict_loop cast_float32 n name x y (sm, w) = (Ret y', (sm', w')) /\
    rpc_log w' = rpc_log w ++ calls /\
    length (List.filter is_list_models_call calls) = n /\
    sm_id sm' = sm_id sm /\
    sm_size sm' = sm_size sm /\
    ((0 < n)%nat ->
     take (length (tobytes (astype_float32 cast_float32 x))) (sm_bytes sm')
     = tobytes (astype_float32 cast_float32 x) /\
     sm_mode sm' = mode_ro).
Proof.
  intros Hfit. revert y sm w Hfit.
  induction n as [|n IH]; intros y sm w Hfit; simpl.
  - exists y, sm, w, []. rewrite app_nil_r. repeat split; lia.
  - unfold bind, on_segment, on_client.
    rewrite write_to_shm_cases. cbv zeta.
    destruct (Nat.ltb_spec (sm_size sm)
                (length (tobytes (astype_float32 cast_float32 x)))); [lia|].
    cbn [sm_id].
    destruct (predict_returns cast_float32 name (InSegment (sm_id sm)) true w)
      as (y1 & w1 & Hp).
    pose proof (predict_calls cast_float32 name (InSegment (sm_id sm)) true w) as Hcalls.
    rewrite Hp in *. simpl in Hcalls.
    match goal with
    | |- context [shm_predict_loop _ n name x y1 (?s, w1)] =>
        destruct (IH y1 s w1) as (y' & sm' & w' & calls & Hloop & Hlog & Hlm & Hid & Hsz & Hn);
        [simpl; lia|]
    end.
    rewrite Hloop. simpl in Hid, Hsz.
    assert (Hstate :
              take (length (tobytes (astype_float32 cast_float32 x))) (sm_bytes sm')
              = tobytes (astype_float32 cast_float32 x) /\ sm_mode sm' = mode_ro).
    { destruct n as [|n'].
      - simpl in Hloop. injection Hloop as _ <- _. simpl.
        split; [apply take_app_length|reflexivity].
      - apply Hn. lia. }
    destruct Hcalls as [Hc|[t Hc]]; rewrite Hc in Hlog.
    + exists y', sm', w', (CallListModels :: calls).
      rewrite Hlog, <- app_assoc. simpl. rewrite Hlm. repeat split; tauto.
    + exists y', sm', w', (CallListModels :: CallPredict (mkPredictRequest name [t]) :: calls).
      rewrite Hlog, <- app_assoc. simpl. rewrite Hlm. repeat split; tauto.
Qed.

(** X18: when the float32 bytes of the payload do not fit the segment,
    the shared-memory loop stops in its first round with the [ValueError]
    of the write, before any remote call: the agent is not contacted and
    nothing is printed. *)
Theorem shm_predict_loop_stops
  (n : nat) (name : string) (x : NDArray) (y : option NDArray)
  (sm : SharedMemory) (w : World St) :
  (sm_size sm < length (tobytes (astype_float32 cast_float32 x)))%nat ->
  (0 < n)%nat ->
  exists sm',
    shm_predict_loop cast_float32 n name x y (sm, w)
    = (Raise (ValueError "attempt to write past the end of the segment"), (sm', w)) /\
    sm_bytes sm' = sm_bytes sm.
Proof.
  intros Hlong Hn. destruct n as [|n]; [lia|]. simpl.
  unfold bind, on_segment. rewrite write_to_shm_cases. cbv zeta.
  destruct (Nat.ltb_spec (sm_size sm)
              (length (tobytes (astype_float32 cast_float32 x)))); [|lia].
  eexists. split; reflexivity.
Qed.
End ShmLoopFacts.

(** ** The polling loops *)

Section PollingFacts.
Variable status_at : nat -> string.

Lemma wait_while_running_from (n k fuel : nat) (job : string) (c : Console) :
  (forall j, (j < n)%nat -> still_running (status_at (k + j)) = true) ->
  still_running (status_at (k + n)) = false ->
  (n < fuel)%nat ->
  wait_while_running status_at fuel k job c
  = Some (PollBreak (status_at (k + n)),
          mkConsole (console_lines c ++ replicate n "Running..."%string ++
                     [(status_at (k + n) ++ " " ++ job)%string])
                    (slept_seconds c + 5 * Z.of_nat n)).
Proof.
  revert k fuel c. induction n as [|n IH]; intros k fuel c Hrun Hend Hfuel;
    (destruct fuel as [|fuel]; [lia|]); simpl.
  - rewrite Nat.add_0_r in Hend. rewrite Hend, Nat.add_0_r.
    do 2 f_equal. f_equal. lia.
  - pose proof (Hrun 0%nat ltac:(lia)) as H0. rewrite Nat.add_0_r in H0. rewrite H0.
    rewrite (IH (Datatypes.S k) fuel).
    + replace (Datatypes.S k + n)%nat with (k + Datatypes.S n)%nat by lia.
      simpl. rewrite <- app_assoc. do 2 f_equal. f_equal. lia.
    + intros j Hj. replace (Datatypes.S k + j)%nat with (k + Datatypes.S j)%nat by lia.
      apply Hrun. lia.
    + now replace (Datatypes.S k + n)%nat with (k + Datatypes.S n)%nat by lia.
    + lia.
Qed.

(** X19: the loop that waits for a compilation or packaging job ends at
    the first status that is neither STARTING nor INPROGRESS, whatever it
    is (a failed job ends it like a completed one, without an
    exception): it has then printed one "Running..." line and slept five
    seconds per earlier answer, and its last line is the status with the
    name of the compilation job.  As long as the job is reported as
    running the loop goes on. *)
Theorem wait_while_running_ends (n fuel : nat) (job : string) (c : Console) :
  ((forall j, (j < n)%nat -> still_running (status_at j) = true) ->
   still_running (status_at n) = false ->
   (n < fuel)%nat ->
   wait_while_running status_at fuel 0 job c
   = Some (PollBreak (status_at n),
           mkConsole (console_lines c ++ replicate n "Running..."%string ++
                      [(status_at n ++ " " ++ job)%string])
                     (slept_seconds c + 5 * Z.of_nat n))) /\
  ((forall j, (j < fuel)%nat -> still_running (status_at j) = true) ->
   wait_while_running status_at fuel 0 job c = None).
Proof.
  split.
  - intros Hrun Hend Hfuel.
    now apply (wait_while_running_from n 0 fuel job c).
  - intros Hrun.
    assert (H : forall k', (forall j, (j < fuel)%nat ->
                                      still_running (status_at (k' + j)) = true) ->
                           forall c', wait_while_running status_at fuel k' job c' = None).
    { clear. induction fuel as [|fuel IH]; intros k' Hrun c'; simpl; [reflexivity|].
      pose proof (Hrun 0%nat ltac:(lia)) as H0. rewrite Nat.add_0_r in H0. rewrite H0.
      apply IH. intros j Hj.
      replace (Datatypes.S k' + j)%nat with (k' + Datatypes.S j)%nat by lia.
      apply Hrun. lia. }
    apply (H 0%nat). intros j Hj. simpl. now apply Hrun.
Qed.

Lemma wait_for_packaging_from (n k fuel : nat) (c : Console) :
  (forall j, (j < n)%nat -> packaging_pending (status_at (k + j)) = true) ->
  (n < fuel)%nat ->
  wait_for_packaging status_at fuel k c
  = wait_for_packaging status_at (fuel - n) (k + n)
      (mkConsole (console_lines c ++ replicate n "Packaging ..."%string)
                 (slept_seconds c + 30 * Z.of_nat n)).
Proof.
  revert k fuel c. induction n as [|n IH]; intros k fuel c Hpend Hfuel.
  - rewrite Nat.sub_0_r, Nat.add_0_r. simpl. rewrite app_nil_r.
    destruct c as [l t]. simpl. do 2 f_equal. lia.
  - destruct fuel as [|fuel]; [lia|]. simpl.
    pose proof (Hpend 0%nat ltac:(lia)) as H0. rewrite Nat.add_0_r in H0.
    unfold packaging_pending in H0.
    apply andb_true_iff in H0 as [Hc Hf].
    apply negb_true_iff in Hc, Hf. rewrite Hc, Hf.
    rewrite (IH (Datatypes.S k) fuel).
    + replace (Datatypes.S k + n)%nat with (k + Datatypes.S n)%nat by lia.
      replace (Datatypes.S fuel - Datatypes.S n)%nat with (fuel - n)%nat by lia.
      f_equal. cbn [console_lines slept_seconds replicate].
      f_equal; [now rewrite <- app_assoc|lia].
    + intros j Hj. replace (Datatypes.S k + j)%nat with (k + Datatypes.S j)%nat by lia.
      apply Hpend. lia.
    + lia.
Qed.

(** X20: the packaging loop of the Greengrass notebook ends at the first
    answer that is COMPLETED or FAILED, after one "Packaging ..." line and
    thirty seconds of sleep per earlier answer: on COMPLETED it goes on to
    print "Done", on FAILED it raises the [RuntimeError] and "Done" is
    not printed. *)
Theorem wait_for_packaging_ends (n fuel : nat) (c : Console) :
  (forall j, (j < n)%nat -> packaging_pending (status_at j) = true) ->
  (n < fuel)%nat ->
  (status_at n = "COMPLETED"%string ->
   wait_for_packaging status_at fuel 0 c
   = Some (PollBreak "COMPLETED",
           mkConsole (console_lines c ++ replicate n "Packaging ..."%string ++ ["Done"%string])
                     (slept_seconds c + 30 * Z.of_nat n))) /\
  (status_at n = "FAILED"%string ->
   wait_for_packaging status_at fuel 0 c
   = Some (PollRuntimeError "Edge Packaging failed",
           mkConsole (console_lines c ++ replicate n "Packaging ..."%string)
                     (slept_seconds c + 30 * Z.of_nat n))).
Proof.
  intros Hpend Hfuel.
  rewrite (wait_for_packaging_from n 0 fuel c) by (simpl; assumption).
  destruct (fuel - n)%nat as [|f] eqn:Hf; [lia|]. simpl.
  split; intros ->; simpl; [|reflexivity].
  now rewrite <- app_assoc.
Qed.

(** X21: a packaging job that never reports COMPLETED or FAILED (one that
    was stopped, say) keeps the packaging loop of the Greengrass notebook
    polling for ever: no number of answers ends it. *)
Theorem wait_for_packaging_never_ends (fuel : nat) (c : Console) :
  (forall j, packaging_pending (status_at j) = true) ->
  wait_for_packaging status_at fuel 0 c = None.
Proof.
  intros Hpend. generalize 0%nat as k. revert c.
  induction fuel as [|fuel IH]; intros c k; simpl; [reflexivity|].
  pose proof (Hpend k) as Hk. unfold packaging_pending in Hk.
  apply andb_true_iff in Hk as [Hc Hf].
  apply negb_true_iff in Hc, Hf. rewrite Hc, Hf. apply IH.
Qed.
End PollingFacts.

(** ** Splitting ARNs *)

Lemma split_on_nonempty (sep : ascii) (s : string) : split_on sep s <> [].
Proof.
  destruct s as [|c s]; simpl; [discriminate|].
  destruct (Ascii.eqb c sep); [discriminate|].
  destruct (split_on sep s); discriminate.
Qed.

Lemma split_on_length (sep : ascii) (s : string) :
  length (split_on sep s) = Datatypes.S (count_char sep s).
Proof.
  induction s as [|c s IH]; simpl; [reflexivity|].
  destruct (Ascii.eqb c sep); simpl.
  - now rewrite IH.
  - destruct (split_on sep s) as [|f fs]; simpl in *; [discriminate IH|exact IH].
Qed.

(** A field without the separator is cut off at the first separator. *)
Lemma split_on_field (sep : ascii) (a r : string) :
  count_char sep a = 0%nat ->
  split_on sep (a ++ String sep r) = a :: split_on sep r.
Proof.
  induction a as [|c a IH]; simpl; intros Hc.
  - now rewrite Ascii.eqb_refl.
  - destruct (Ascii.eqb c sep); [discriminate Hc|].
    now rewrite IH by exact Hc.
Qed.

Lemma split_on_whole (sep : ascii) (a : string) :
  count_char sep a = 0%nat -> split_on sep a = [a].
Proof.
  induction a as [|c a IH]; simpl; intros Hc; [reflexivity|].
  destruct (Ascii.eqb c sep); [discriminate Hc|].
  now rewrite IH by exact Hc.
Qed.

(** What follows a separator is split on its own. *)
Lemma split_on_behind (sep : ascii) (p r : string) :
  exists fields, fields <> [] /\
    split_on sep (p ++ String sep r) = fields ++ split_on sep r.
Proof.
  induction p as [|c p (fields & Hne & IH)]; simpl.
  - rewrite Ascii.eqb_refl. now exists [EmptyString].
  - destruct (Ascii.eqb c sep).
    + exists (EmptyString :: fields). split; [discriminate|]. now rewrite IH.
    + rewrite IH. destruct fields as [|f fs]; [contradiction|].
      exists (String c f :: fs). split; [discriminate|reflexivity].
Qed.

(** X22: [cert_arn.split('/')[-1]] never raises, and it yields what
    follows the last slash: for an ARN that ends in a slash and an id
    without slashes it is the id, and a text without any slash comes back
    whole. *)
Theorem certificate_id_last_field (arn prefix id : string) :
  is_raise (certificate_id arn) = false /\
  (count_char "/" id = 0%nat ->
   certificate_id (prefix ++ String "/" id) = Ret id /\
   certificate_id id = Ret id).
Proof.
  split.
  - unfold certificate_id.
    destruct (last (split_on "/" arn)) eqn:Hl; [reflexivity|].
    apply last_None in Hl. now destruct (split_on_nonempty "/" arn).
  - intros Hid. unfold certificate_id. split.
    + destruct (split_on_behind "/" prefix id) as (fields & _ & ->).
      rewrite (split_on_whole "/" id Hid), last_snoc. reflexivity.
    + now rewrite (split_on_whole "/" id Hid).
Qed.

Lemma certificate_id_last_field_witness :
  certificate_id "arn:aws:iot:us-west-2:123456789012:cert/0a1b2c" = Ret "0a1b2c"%string.
Proof.
  apply (certificate_id_last_field "" "arn:aws:iot:us-west-2:123456789012:cert" "0a1b2c").
  reflexivity.
Defined.

(** X23: [role.split(":")[4]] raises an [IndexError] exactly when the
    role has fewer than four colons; on an ARN of six fields it yields
    the fifth, the account id. *)
Theorem account_id_fifth_field (role a b c d acct rest : string) :
  (is_raise (account_id role) = true <-> (count_char ":" role < 4)%nat) /\
  (count_char ":" a = 0%nat -> count_char ":" b = 0%nat ->
   count_char ":" c = 0%nat -> count_char ":" d = 0%nat ->
   count_char ":" acct = 0%nat ->
   account_id (a ++ String ":" (b ++ String ":" (c ++ String ":"
                 (d ++ String ":" (acct ++ String ":" rest)))))
   = Ret acct).
Proof.
  split.
  - unfold account_id.
    destruct (split_on ":" role !! 4%nat) as [f|] eqn:Hl; simpl.
    + apply lookup_lt_Some in Hl. rewrite split_on_length in Hl.
      split; [discriminate|lia].
    + apply lookup_ge_None in Hl. rewrite split_on_length in Hl.
      split; [lia|reflexivity].
  - intros Ha Hb Hc Hd Hacct. unfold account_id.
    rewrite !split_on_field by assumption. reflexivity.
Qed.

Lemma account_id_fifth_field_witness :
  account_id "arn:aws:iam::123456789012:role/service-role/SageMakerRole"
  = Ret "123456789012"%string.
Proof.
  apply (account_id_fifth_field "" "arn" "aws" "iam" "" "123456789012"
           "role/service-role/SageMakerRole"); reflexivity.
Defined.

(** ** Answers and arguments [predict] cannot use *)

Section PredictEdges.
Context {St : Type} `{!AgentStub St}.
Variable cast_float32 : DType -> list byte -> list byte.

(** X24: an answer of the agent without any tensor makes [predict]
    return [None] with an [IndexError] printed, after both remote calls
    have been made. *)
Theorem predict_empty_answer
  (name : string) (x : PredictInput) (shm : bool) (w : World St)
  (resp : ListModelsResponse) (s1 s2 : St) (io : ModelIO)
  (meta mo : TensorMetadata) (data : TensorData) (presp : PredictResponse) :
  ListModels (agent_state w) = (Ret resp, s1) ->
  models_dict (lm_models resp) !! name = Some io ->
  index0 (io_in io) = Ret meta ->
  index0 (io_out io) = Ret mo ->
  request_data cast_float32 x shm = Ret data ->
  Predict (mkPredictRequest name [mkTensor meta data]) s1 = (Ret presp, s2) ->
  response_tensors presp = [] ->
  predict cast_float32 name x shm w
  = (Ret None,
     mkWorld s2
       (rpc_log w ++ [CallListModels;
                      CallPredict (mkPredictRequest name [mkTensor meta data])])
       (stdout w ++ [IndexError]) (uuid_seed w)).
Proof.
  intros Hl Hd Hi Ho Hr Hp Ht.
  rewrite predict_eq, predict_body_cases, Hl. cbv zeta.
  rewrite Hd, Hi, Hr, request_metadata_id, Hp, Ho, Ht. simpl.
  unfold log_exn, after_call. simpl. now rewrite <- app_assoc.
Qed.

Lemma segment_handle_out_of_range (v : Z) :
  ~ 0 <= v < 18446744073709551616 -> is_raise (segment_handle v) = true.
Proof.
  unfold segment_handle, uint64_ok. intros Hout.
  destruct (Z.leb_spec 0 v), (Z.ltb_spec v 18446744073709551616); simpl;
    try reflexivity.
  lia.
Qed.

(** X25: an argument the request cannot carry never reaches the agent as
    a prediction: with [shm] set, an array that is not an integer array
    without dimensions, or a segment id outside the uint64 range of the
    field; without [shm], a segment id.  [predict] then returns [None]
    and sends no [Predict] request. *)
Theorem predict_wrong_argument_kind
  (name : string) (x : PredictInput) (shm : bool) (w : World St) :
  (shm = true /\ exists a, x = InArray a /\ array_index a = None) \/
  (shm = true /\ exists id,
     (x = InSegment id \/ exists a, x = InArray a /\ array_index a = Some id) /\
     ~ 0 <= id < 18446744073709551616) \/
  (shm = false /\ exists id, x = InSegment id) ->
  fst (predict cast_float32 name x shm w) = Ret None /\
  existsb is_predict_call
    (drop (length (rpc_log w)) (rpc_log (snd (predict cast_float32 name x shm w))))
  = false.
Proof.
  intros Hkind.
  assert (Hdata : is_raise (request_data cast_float32 x shm) = true).
  { destruct Hkind as [[-> (a & -> & Hidx)]|[[-> (id & Hx & Hout)]|[-> [id ->]]]];
      simpl.
    - now rewrite Hidx.
    - destruct Hx as [->|(a & -> & Hidx)]; simpl; [|rewrite Hidx];
        now apply segment_handle_out_of_range.
    - reflexivity. }
  destruct (predict_log cast_float32 name x shm w) as (-> & _ & _).
  rewrite predict_eq.
  rewrite (predict_body_cases cast_float32 name x shm w).
  destruct (ListModels (agent_state w)) as [[resp|e] s1]; cbv zeta; simpl;
    [|rewrite drop_app_length; split; reflexivity].
  destruct (models_dict (lm_models resp) !! name) as [io|]; simpl;
    [|rewrite drop_app_length; split; reflexivity].
  destruct (index0 (io_in io)) as [meta|e]; simpl;
    [|rewrite drop_app_length; split; reflexivity].
  destruct (request_data cast_float32 x shm) as [data|e]; [discriminate Hdata|].
  simpl. rewrite drop_app_length. split; reflexivity.
Qed.
End PredictEdges.

(** ** Examples for the further properties *)


Lemma predict_without_output_metadata_witness :
  predict EchoAgent.no_cast EchoAgent.wind_name (InArray EchoAgent.x12) false
          (EchoAgent.world true [Samples.no_outputs])
  = (Ret None,
     mkWorld (EchoAgent.mkState true [Samples.no_outputs])
       [CallListModels;
        CallPredict (mkPredictRequest EchoAgent.wind_name
                       [mkTensor EchoAgent.meta_in (ByteData (buffer EchoAgent.x12))])]
       [IndexError] 0).
Proof.
  apply (predict_without_output_metadata EchoAgent.no_cast EchoAgent.wind_name
           (InArray EchoAgent.x12) false
           (EchoAgent.world true [Samples.no_outputs])
           (mkListModelsResponse [Samples.no_outputs])
           (EchoAgent.mkState true [Samples.no_outputs])
           (EchoAgent.mkState true [Samples.no_outputs])
           (mkModelIO [EchoAgent.meta_in] [])
           EchoAgent.meta_in (ByteData (buffer EchoAgent.x12))
           (mkPredictResponse [mkTensor EchoAgent.meta_in (ByteData (buffer EchoAgent.x12))]));
    vm_compute; reflexivity.
Defined.

Lemma predict_without_input_metadata_witness :
  predict EchoAgent.no_cast EchoAgent.wind_name (InArray EchoAgent.x12) false
          (EchoAgent.world true [Samples.no_inputs])
  = (Ret None,
     mkWorld (EchoAgent.mkState true [Samples.no_inputs])
       [CallListModels] [IndexError] 0).
Proof.
  apply (predict_without_input_metadata EchoAgent.no_cast EchoAgent.wind_name
           (InArray EchoAgent.x12) false
           (EchoAgent.world true [Samples.no_inputs])
           (mkListModelsResponse [Samples.no_inputs])
           (EchoAgent.mkState true [Samples.no_inputs])
           (mkModelIO [] [EchoAgent.meta_out]));
    vm_compute; reflexivity.
Defined.

Lemma predict_request_content_witness :
  exists resp s1 io meta rest data,
    ListModels (agent_state (EchoAgent.world true [EchoAgent.wind_model])) = (Ret resp, s1) /\
    models_dict (lm_models resp) !! EchoAgent.wind_name = Some io /\
    io_in io = meta :: rest /\
    mkPredictRequest EchoAgent.wind_name
      [mkTensor EchoAgent.meta_in (ShmData (mkSharedMemoryHandle 7 0))]
    = mkPredictRequest EchoAgent.wind_name [mkTensor meta data] /\
    ((true = false /\ exists a, InArray Samples.scalar7 = InArray a /\
        data = ByteData (tobytes (astype_float32 EchoAgent.no_cast a))) \/
     (true = true /\ exists id,
        (InArray Samples.scalar7 = InSegment id \/
         exists a, InArray Samples.scalar7 = InArray a /\ array_index a = Some id) /\
        0 <= id < 18446744073709551616 /\
        data = ShmData (mkSharedMemoryHandle id 0))).
Proof.
  apply (predict_request_content EchoAgent.no_cast EchoAgent.wind_name
           (InArray Samples.scalar7) true (EchoAgent.world true [EchoAgent.wind_model])).
  vm_compute. right. left. reflexivity.
Defined.

Lemma capture_data_request_witness :
  rpc_log (snd (capture_data EchoAgent.no_uuid EchoAgent.wind_name
                  (Some EchoAgent.x12) (Some EchoAgent.x12)
                  (EchoAgent.world true [EchoAgent.wind_model])))
  = [CallCaptureData
       (mkCaptureDataRequest EchoAgent.wind_name (EchoAgent.no_uuid 0)
          [mkTensor (mkTensorMetadata (encode_utf8 "input") FLOAT32 [1; 2])
                    (ByteData (buffer EchoAgent.x12))]
          [mkTensor (mkTensorMetadata (encode_utf8 "output") FLOAT32 [1; 2])
                    (ByteData (buffer EchoAgent.x12))])].
Proof.
  rewrite (capture_data_request EchoAgent.no_uuid EchoAgent.wind_name
             EchoAgent.x12 EchoAgent.x12
             (EchoAgent.world true [EchoAgent.wind_model])
             eq_refl eq_refl eq_refl eq_refl).
  reflexivity.
Defined.

Lemma capture_data_only_float32_witness :
  rpc_log (snd (capture_data EchoAgent.no_uuid EchoAgent.wind_name
                  (Some EchoAgent.x12) None
                  (EchoAgent.world true [EchoAgent.wind_model])))
  = [].
Proof.
  destruct (capture_data_only_float32 EchoAgent.no_uuid EchoAgent.wind_name
              (Some EchoAgent.x12) None
              (EchoAgent.world true [EchoAgent.wind_model]))
    as (_ & _ & Hnot).
  apply Hnot. intros [_ (a & Hnone & _)]. discriminate Hnone.
Defined.

Lemma write_to_shm_failure_witness :
  exists sm',
    write_to_shm EchoAgent.no_cast EchoAgent.x12 Samples.shm4
    = (Raise (ValueError "attempt to write past the end of the segment"), sm') /\
    sm_bytes sm' = [xff; xff; xff; xff] /\
    sm_mode sm' = mode_rw /\
    sm_attached sm' = true.
Proof.
  apply (write_to_shm_failure EchoAgent.no_cast EchoAgent.x12 Samples.shm4).
  simpl. lia.
Defined.

Lemma write_to_shm_keeps_segment_witness :
  sm_id (snd (write_to_shm EchoAgent.no_cast EchoAgent.x1 shm8)) = 42 /\
  sm_size (snd (write_to_shm EchoAgent.no_cast EchoAgent.x1 shm8)) = 8%nat /\
  length (sm_bytes (snd (write_to_shm EchoAgent.no_cast EchoAgent.x1 shm8))) = 8%nat.
Proof.
  destruct (write_to_shm_keeps_segment EchoAgent.no_cast EchoAgent.x1 shm8
              (snd (write_to_shm EchoAgent.no_cast EchoAgent.x1 shm8)))
    as (Hid & Hsize & Hlen & _); [reflexivity|reflexivity|].
  split; [exact Hid|]. split; [exact Hsize|exact Hlen].
Defined.

Lemma write_to_shm_twice_witness :
  exists sm2,
    write_to_shm EchoAgent.no_cast EchoAgent.x1
      (snd (write_to_shm EchoAgent.no_cast EchoAgent.x1 shm8))
    = (Ret tt, sm2) /\
    sm_bytes sm2 = [x00; x00; x80; x3f; xff; xff; xff; xff].
Proof.
  destruct (write_to_shm_twice EchoAgent.no_cast EchoAgent.x1 shm8
              (snd (write_to_shm EchoAgent.no_cast EchoAgent.x1 shm8)))
    as (sm2 & Hw & Hb & _); [reflexivity|].
  exists sm2. split; [exact Hw|exact Hb].
Defined.

Lemma write_to_shm_fills_segment_witness :
  exists sm',
    write_to_shm EchoAgent.no_cast EchoAgent.x12 shm8 = (Ret tt, sm') /\
    sm_bytes sm' = [x00; x00; x80; x3f; x00; x00; x00; x40] /\
    sm_mode sm' = mode_ro.
Proof.
  apply (write_to_shm_fills_segment EchoAgent.no_cast EchoAgent.x12 shm8).
  - split; [reflexivity|]. split; [repeat constructor; lia|reflexivity].
  - reflexivity.
  - reflexivity.
Defined.

Lemma shm_predict_loop_runs_witness :
  exists y' sm' w' calls,
    shm_predict_loop EchoAgent.no_cast 2 EchoAgent.wind_name EchoAgent.x12 None
      (shm8, EchoAgent.world true [EchoAgent.wind_model])
    = (Ret y', (sm', w')) /\
    rpc_log w' = [] ++ calls /\
    length (List.filter is_list_models_call calls) = 2%nat /\
    sm_id sm' = 42 /\
    sm_size sm' = 8%nat /\
    ((0 < 2)%nat ->
     take 8 (sm_bytes sm') = [x00; x00; x80; x3f; x00; x00; x00; x40] /\
     sm_mode sm' = mode_ro).
Proof.
  apply (shm_predict_loop_runs EchoAgent.no_cast 2 EchoAgent.wind_name EchoAgent.x12
           None shm8 (EchoAgent.world true [EchoAgent.wind_model])).
  simpl. lia.
Defined.

Lemma shm_predict_loop_stops_witness :
  exists sm',
    shm_predict_loop EchoAgent.no_cast 3 EchoAgent.wind_name EchoAgent.x12 None
      (Samples.shm4, EchoAgent.world true [EchoAgent.wind_model])
    = (Raise (ValueError "attempt to write past the end of the segment"),
       (sm', EchoAgent.world true [EchoAgent.wind_model])) /\
    sm_bytes sm' = [xff; xff; xff; xff].
Proof.
  apply (shm_predict_loop_stops EchoAgent.no_cast 3 EchoAgent.wind_name EchoAgent.x12
           None Samples.shm4 (EchoAgent.world true [EchoAgent.wind_model]));
    simpl; lia.
Defined.

Lemma wait_while_running_ends_witness :
  wait_while_running Samples.completing 5 0 "wind-turbine-anomaly-1" Samples.console
  = Some (PollBreak "COMPLETED",
          mkConsole ["Running..."; "Running..."; "COMPLETED wind-turbine-anomaly-1"]%string 10)
  /\
  wait_while_running Samples.completing 2 0 "wind-turbine-anomaly-1" Samples.console
  = None.
Proof.
  split.
  - apply (wait_while_running_ends Samples.completing 2 5 "wind-turbine-anomaly-1"
             Samples.console).
    + intros j Hj. destruct j as [|[|j]]; [reflexivity|reflexivity|lia].
    + reflexivity.
    + lia.
  - apply (wait_while_running_ends Samples.completing 2 2 "wind-turbine-anomaly-1"
             Samples.console).
    intros j Hj. destruct j as [|[|j]]; [reflexivity|reflexivity|lia].
Defined.

Lemma wait_for_packaging_ends_witness :
  wait_for_packaging Samples.completing 5 0 Samples.console
  = Some (PollBreak "COMPLETED",
          mkConsole ["Packaging ..."; "Packaging ..."; "Done"]%string 60)
  /\
  wait_for_packaging Samples.failing 5 0 Samples.console
  = Some (PollRuntimeError "Edge Packaging failed",
          mkConsole ["Packaging ..."]%string 30).
Proof.
  split.
  - apply (wait_for_packaging_ends Samples.completing 2 5 Samples.console).
    + intros j Hj. destruct j as [|[|j]]; [reflexivity|reflexivity|lia].
    + lia.
    + reflexivity.
  - apply (wait_for_packaging_ends Samples.failing 1 5 Samples.console).
    + intros j Hj. destruct j as [|j]; [reflexivity|lia].
    + lia.
    + reflexivity.
Defined.

Lemma wait_for_packaging_never_ends_witness :
  wait_for_packaging Samples.stopped 1000 0 Samples.console = None.
Proof.
  apply (wait_for_packaging_never_ends Samples.stopped 1000 Samples.console).
  intros j. reflexivity.
Defined.

(** On the stopped job the other loop ends with its first answer. *)
Example wait_while_running_stopped :
  wait_while_running Samples.stopped 1 0 "wind-turbine-anomaly-1" Samples.console
  = Some (PollBreak "STOPPED",
          mkConsole ["STOPPED wind-turbine-anomaly-1"]%string 0).
Proof. reflexivity. Qed.

Lemma predict_empty_answer_witness :
  predict EchoAgent.no_cast EchoAgent.wind_name (InArray EchoAgent.x12) false
          (mkWorld (Samples.mkSilent 0) [] [] 0)
  = (Ret None,
     mkWorld (Samples.mkSilent 1)
       [CallListModels;
        CallPredict (mkPredictRequest EchoAgent.wind_name
                       [mkTensor EchoAgent.meta_in (ByteData (buffer EchoAgent.x12))])]
       [IndexError] 0).
Proof.
  apply (predict_empty_answer EchoAgent.no_cast EchoAgent.wind_name
           (InArray EchoAgent.x12) false (mkWorld (Samples.mkSilent 0) [] [] 0)
           (mkListModelsResponse [EchoAgent.wind_model])
           (Samples.mkSilent 0) (Samples.mkSilent 1)
           (mkModelIO [EchoAgent.meta_in] [EchoAgent.meta_out])
           EchoAgent.meta_in EchoAgent.meta_out (ByteData (buffer EchoAgent.x12))
           (mkPredictResponse []));
    vm_compute; reflexivity.
Defined.

Lemma predict_wrong_argument_kind_witness :
  fst (predict EchoAgent.no_cast EchoAgent.wind_name (InArray EchoAgent.x12) true
               (EchoAgent.world true [EchoAgent.wind_model]))
  = Ret None.
Proof.
  apply (predict_wrong_argument_kind EchoAgent.no_cast EchoAgent.wind_name
           (InArray EchoAgent.x12) true
           (EchoAgent.world true [EchoAgent.wind_model])).
  left. split; [reflexivity|]. exists EchoAgent.x12. split; reflexivity.
Defined.

(** [predict(client, model_name, np.array(7), True)]: the integer array
    without dimensions is taken as the segment id 7 and the request is
    sent. *)
Example predict_segment_id_array :
  rpc_log (snd (predict EchoAgent.no_cast EchoAgent.wind_name
                  (InArray Samples.scalar7) true
                  (EchoAgent.world true [EchoAgent.wind_model])))
  = [CallListModels;
     CallPredict (mkPredictRequest EchoAgent.wind_name
                    [mkTensor EchoAgent.meta_in
                       (ShmData (mkSharedMemoryHandle 7 0))])].
Proof. vm_compute. reflexivity. Qed.

(** A negative segment id is refused by the field before any request is
    built. *)
Example predict_negative_segment_id :
  predict EchoAgent.no_cast EchoAgent.wind_name (InSegment (-1)) true
          (EchoAgent.world true [EchoAgent.wind_model])
  = (Ret None,
     mkWorld (EchoAgent.mkState true [EchoAgent.wind_model])
       [CallListModels] [ValueError "Value out of range"] 0).
Proof. vm_compute. reflexivity. Qed.

(** numpy takes any negative dimension as the unknown one. *)
Example reshape_negative_dimension :
  np_reshape EchoAgent.x12 [-2; 1] = Ret (mkNDArray np_float32 [2; 1] (buffer EchoAgent.x12)).
Proof. reflexivity. Qed.
